(** * dem_hero: metaball field, boundary scan and spring-driven blob

    A shallow embedding of the numeric core of [manim-hero/dem_hero.py]:
    [MetaballField] (field evaluation, inside test, grid boundary scan),
    [MetaballMobject.generate_points] (degenerate and hull-failure
    fallbacks) and [BlobPhysics] (the per-tick spring update), followed
    by the bookkeeping around it: [VideoTexture] (frame subsampling and
    looping lookup), [VideoMaskedText] (letter visibility), the shape
    the scenes draw for the blob and the typewriter timing.

    Modelling conventions.
    - Python [float] values are idealised as real numbers ([R]): rounding,
      overflow, infinities and NaN are outside the model.  [int] values
      are [Z] and are injected with [IZR] where Python converts them.
    - A Python expression that can raise is a computation in the
      [result] monad below.  [a / b] with a divisor that is not a
      non-zero literal is [py_div], which raises [ZeroDivisionError] on a
      zero divisor; a division by the literals [0.5] and [2] is written
      with the field division of [R].
    - [for] loops are [for_each], a left-to-right fold that threads the
      loop-carried variables and stops at the first exception.
    - Calls into numpy, scipy and manimlib made by [generate_points] are
      section variables: nothing is assumed about them.  *)

From Stdlib Require Import Reals Lra Lia List ZArith QArith Qreals Bool.
Import ListNotations.
Open Scope R_scope.

(** ** Python runtime fragments *)

Module Py.

Inductive exn : Type :=
| ZeroDivisionError
| IndexError
| LibraryError.

Inductive result (A : Type) : Type :=
| Ok (a : A)
| Raise (e : exn).

Arguments Ok {A} a.
Arguments Raise {A} e.

Definition bind {A B : Type} (m : result A) (k : A -> result B) : result B :=
  match m with
  | Ok a => k a
  | Raise e => Raise e
  end.

(** [try: body  except Exception: handler] *)
Definition try_except {A : Type} (body : result A) (handler : result A)
  : result A :=
  match body with
  | Ok a => Ok a
  | Raise _ => handler
  end.

(** Float true division. *)
Definition py_div (a b : R) : result R :=
  if Req_dec_T b 0 then Raise ZeroDivisionError else Ok (a / b).

(** [a >= b] on floats. *)
Definition py_ge (a b : R) : bool :=
  if Rge_dec a b then true else false.

(** Builtin [min(a, b)]: the first argument unless the second is
    strictly smaller. *)
Definition py_min (a b : R) : R :=
  if Rlt_dec b a then b else a.

(** Builtins [all] and [any] on a list of booleans. *)
Definition all (l : list bool) : bool := forallb (fun b => b) l.
Definition any (l : list bool) : bool := existsb (fun b => b) l.

(** [range(n)]: empty when [n <= 0]. *)
Definition range (n : Z) : list Z := map Z.of_nat (seq 0 (Z.to_nat n)).

(** [for a in l: s = body a s] *)
Fixpoint for_each {A S : Type} (l : list A) (body : A -> S -> result S)
  (s : S) : result S :=
  match l with
  | [] => Ok s
  | a :: l' => bind (body a s) (for_each l' body)
  end.

End Py.

Import Py.

Notation "x <- m ;; k" := (bind m (fun x => k))
  (at level 61, m at next level, right associativity).

(** ** class MetaballField *)

Module MetaballField.

(** One entry of [self.blobs]: [[x, y, radius]]. *)
Definition blob : Type := (R * R * R)%type.

Record t : Type := mk {
  threshold : R;
  blobs : list blob
}.

(** [MetaballField(threshold)] *)
Definition init (threshold : R) : t := mk threshold [].

Definition add_blob (self : t) (x y radius : R) : t :=
  mk (threshold self) (blobs self ++ [(x, y, radius)]).

Definition clear_blobs (self : t) : t := mk (threshold self) [].

Definition set_blobs (self : t) (bs : list blob) : t :=
  mk (threshold self) bs.

(** The loop of [field_value], with [total] as loop-carried variable. *)
Definition field_step (x y : R) (b : blob) (total : R) : result R :=
  let '(bx, by_, r) := b in
  let dx := x - bx in
  let dy := y - by_ in
  let dist_sq := dx * dx + dy * dy + 0.0001 in
  q <- py_div (r * r) dist_sq ;;
  Ok (total + q).

Definition field_value (self : t) (x y : R) : result R :=
  for_each (blobs self) (field_step x y) 0.

Definition is_inside (self : t) (x y : R) : result bool :=
  v <- field_value self x y ;;
  Ok (py_ge v (threshold self)).

(** Body of the inner loop of [get_boundary_points]. *)
Definition cell_step (self : t) (x_min y_min step_x step_y : R) (i j : Z)
  (boundary_points : list (R * R)) : result (list (R * R)) :=
  let x := x_min + IZR i * step_x in
  let y := y_min + IZR j * step_y in
  c0 <- is_inside self x y ;;
  c1 <- is_inside self (x + step_x) y ;;
  c2 <- is_inside self (x + step_x) (y + step_y) ;;
  c3 <- is_inside self x (y + step_y) ;;
  let corners := [c0; c1; c2; c3] in
  if negb (all corners) && any corners
  then Ok (boundary_points ++ [(x + step_x / 2, y + step_y / 2)])
  else Ok boundary_points.

Definition get_boundary_points (self : t) (resolution : Z)
  (bounds : R * R * R * R) : result (list (R * R)) :=
  let '(x_min, x_max, y_min, y_max) := bounds in
  step_x <- py_div (x_max - x_min) (IZR resolution) ;;
  step_y <- py_div (y_max - y_min) (IZR resolution) ;;
  for_each (range resolution)
    (fun i acc =>
       for_each (range resolution)
         (cell_step self x_min y_min step_x step_y i) acc)
    [].

End MetaballField.

(** ** class MetaballMobject *)

Module MetaballMobject.

Definition point3 : Type := (R * R * R)%type.

Definition ORIGIN : point3 := (0, 0, 0).

Record t : Type := mk {
  metaball_field : MetaballField.t;
  resolution : Z;
  points : list point3
}.

Definition set_points (self : t) (pts : list point3) : t :=
  mk (metaball_field self) (resolution self) pts.

(** [points_array[vertices]]: numpy indexing by an index array. *)
Fixpoint take_rows (points_array : list (R * R)) (vertices : list nat)
  : result (list (R * R)) :=
  match vertices with
  | [] => Ok []
  | v :: vs =>
      match nth_error points_array v with
      | None => Raise IndexError
      | Some p => ps <- take_rows points_array vs ;; Ok (p :: ps)
      end
  end.

Section External.

(** [scipy.spatial.ConvexHull(points).vertices], or the exception it
    raises. *)
Variable ConvexHull : list (R * R) -> result (list nat).

(** The points [VMobject.set_points_smoothly] stores for the given
    anchors, or the exception it raises. *)
Variable smooth_path : list point3 -> result (list point3).

(** [Circle(radius=r).get_points()] *)
Variable Circle_points : R -> list point3.

Definition generate_points (self : t) : result t :=
  boundary <- MetaballField.get_boundary_points (metaball_field self)
                (resolution self) (-8, 8, -4.5, 4.5) ;;
  if (length boundary <? 3)%nat then
    Ok (set_points self [ORIGIN])
  else
    let points_array := boundary in
    try_except
      (vertices <- ConvexHull points_array ;;
       hull_points <- take_rows points_array vertices ;;
       let points_3d := map (fun p => (fst p, snd p, 0)) hull_points in
       let points_3d := points_3d ++ firstn 1 points_3d in
       pts <- smooth_path points_3d ;;
       Ok (set_points self pts))
      (Ok (set_points self (Circle_points 1))).

End External.

End MetaballMobject.

(** ** class BlobPhysics *)

Module BlobPhysics.

Record t : Type := mk {
  x : R;
  y : R;
  vx : R;
  vy : R;
  base_radius : R;
  radius : R;
  stiffness : R;
  damping : R;
  max_stretch : R
}.

(** [BlobPhysics(x, y, radius)] *)
Definition init (x0 y0 radius0 : R) : t :=
  mk x0 y0 0 0 radius0 radius0 0.08 0.85 1.5.

Definition update (self : t) (target_x target_y dt : R) : t :=
  let dx := target_x - x self in
  let dy := target_y - y self in
  let vx1 := vx self + dx * stiffness self in
  let vy1 := vy self + dy * stiffness self in
  let vx2 := vx1 * damping self in
  let vy2 := vy1 * damping self in
  let x1 := x self + vx2 in
  let y1 := y self + vy2 in
  let speed := sqrt (vx2 ^ 2 + vy2 ^ 2) in
  let stretch_factor := py_min (speed / 0.5) (max_stretch self - 1) in
  let radius1 := base_radius self * (1 + stretch_factor * 0.3) in
  mk x1 y1 vx2 vy2 (base_radius self) radius1
     (stiffness self) (damping self) (max_stretch self).

Definition get_position (self : t) : R * R := (x self, y self).

(** The fixed tuning constants every constructed body carries. *)
Definition tuned (self : t) : Prop :=
  stiffness self = 0.08 /\ damping self = 0.85 /\ max_stretch self = 1.5.

(** A body driven through a sequence of [update(target_x, target_y, dt)]
    calls. *)
Definition drive (self : t) (calls : list (R * R * R)) : t :=
  fold_left (fun s '(target_x, target_y, dt) => update s target_x target_y dt)
    calls self.

(** [speed] as [update] computes it, read back from a state. *)
Definition speed (self : t) : R := sqrt (vx self ^ 2 + vy self ^ 2).

(** The scenario of the test plan: a body built at the origin with base
    radius 1.5, ticked toward [(3, 0)] with [dt = 1/60]. *)
Definition tick (self : t) : t := update self 3 0 (1 / 60).

Definition run (n : nat) : t := Nat.iter n tick (init 0 0 1.5).

End BlobPhysics.

(** ** The specification's formulas *)

Module Spec.

Definition eps : R := 1e-4.

(** [radius² / (dx² + dy² + ε)] for one source. *)
Definition source_term (x y : R) (b : MetaballField.blob) : R :=
  let '(sx, sy, r) := b in
  r ^ 2 / ((x - sx) ^ 2 + (y - sy) ^ 2 + eps).

(** [Σ over sources]. *)
Fixpoint field_sum (x y : R) (sources : list MetaballField.blob) : R :=
  match sources with
  | [] => 0
  | b :: rest => source_term x y b + field_sum x y rest
  end.

(** [fieldValue(x, y) >= threshold] *)
Definition inside (f : MetaballField.t) (x y : R) : bool :=
  py_ge (field_sum x y (MetaballField.blobs f)) (MetaballField.threshold f).

Definition all_equal (c0 c1 c2 c3 : bool) : bool :=
  eqb c0 c1 && eqb c1 c2 && eqb c2 c3.

(** The cells of the grid, in scan order, and what each one emits. *)
Section Grid.
Variable f : MetaballField.t.
Variables x_min x_max y_min y_max : R.
Variable resolution : Z.

Definition stepX : R := (x_max - x_min) / IZR resolution.
Definition stepY : R := (y_max - y_min) / IZR resolution.
Definition cornerX (i : Z) : R := x_min + IZR i * stepX.
Definition cornerY (j : Z) : R := y_min + IZR j * stepY.

Definition straddles (i j : Z) : bool :=
  let x := cornerX i in
  let y := cornerY j in
  negb (all_equal (inside f x y) (inside f (x + stepX) y)
          (inside f (x + stepX) (y + stepY)) (inside f x (y + stepY))).

Definition center (i j : Z) : R * R :=
  (cornerX i + stepX / 2, cornerY j + stepY / 2).

Definition emit (i j : Z) : list (R * R) :=
  if straddles i j then [center i j] else [].

Definition boundary_cloud : list (R * R) :=
  flat_map (fun i => flat_map (emit i) (range resolution))
    (range resolution).
End Grid.

(** [clamp(v, lo, hi)] *)
Definition clamp (v lo hi : R) : R := Rmax lo (Rmin v hi).

End Spec.

(** ** Exact rational trace of the scenario

    With [y = vy = 0] the position and velocity of the scenario stay
    rational, so the 60 ticks can be evaluated exactly. *)

Module Trace.

Definition tickQ (s : Q * Q) : Q * Q :=
  let '(qx, qv) := s in
  let v1 := Qred ((qv + (3 - qx) * 0.08) * 0.85)%Q in
  (Qred (qx + v1)%Q, v1).

Definition runQ (n : nat) : Q * Q := Nat.iter n tickQ (0%Q, 0%Q).

Definition posQ (n : nat) : Q := fst (runQ n).
Definition velQ (n : nat) : Q := snd (runQ n).

(** [holds_along P s n]: [P] holds between every two successive states
    of the [n] ticks that follow [s]. *)
Fixpoint holds_along (P : Q * Q -> Q * Q -> bool) (s : Q * Q) (n : nat)
  : bool :=
  match n with
  | O => true
  | S k => let s' := tickQ s in P s s' && holds_along P s' k
  end.

Definition rising (s s' : Q * Q) : bool :=
  match (fst s ?= fst s')%Q with Lt => true | _ => false end.

Definition within (lo hi : Q) (s s' : Q * Q) : bool :=
  Qle_bool lo (fst s') && Qle_bool (fst s') hi.

End Trace.

(** ** More Python runtime fragments *)

Module PyInt.

(** [int(r)] on a float: truncation toward zero. *)
Definition py_int (r : R) : Z :=
  if Rle_dec 0 r then Int_part r else (- Int_part (- r))%Z.

(** [a % b] on ints: the result has the sign of [b]; a zero [b]
    raises. *)
Definition py_mod (a b : Z) : result Z :=
  if (b =? 0)%Z then Raise ZeroDivisionError else Ok (a mod b)%Z.

(** [a > b] on floats. *)
Definition py_gt (a b : R) : bool :=
  if Rgt_dec a b then true else false.

(** [l[i]] on a list: a negative index counts from the end. *)
Definition py_index {A : Type} (l : list A) (i : Z) : result A :=
  let n := Z.of_nat (length l) in
  let k := if (i <? 0)%Z then (n + i)%Z else i in
  if (k <? 0)%Z then Raise IndexError
  else match nth_error l (Z.to_nat k) with
       | Some a => Ok a
       | None => Raise IndexError
       end.

(** [sum(l)] on floats. *)
Definition py_sum (l : list R) : R := fold_left Rplus l 0.

End PyInt.

Import PyInt.

(** ** class VideoTexture

    Frames are opaque images; the capture is modelled from the point
    where it has been opened, as the frame rate it reports and the
    sequence of frames its successive [read()] calls deliver. *)

Module VideoTexture.

Section Frames.

Variable frame : Type.

(** [np.zeros((1080, 1920, 3), dtype=np.uint8)] *)
Variable black : frame.

(** [cv2.cvtColor(frame, cv2.COLOR_BGR2RGB)] *)
Variable cvtColor : frame -> frame.

Record t : Type := mk {
  target_fps : Z;
  frames : list frame;
  frame_count : Z;
  current_frame_idx : Z
}.

(** The state [__init__] sets up before it calls [_load_video]. *)
Definition fresh (target_fps : Z) : t := mk target_fps [] 0 0.

(** Body of the [while] loop of [_load_video] for one delivered frame;
    the loop-carried variables are [self.frames] and [frame_idx]. *)
Definition read_step (frame_skip : Z) (fr : frame) (st : list frame * Z)
  : result (list frame * Z) :=
  let '(frames, frame_idx) := st in
  m <- py_mod frame_idx frame_skip ;;
  let frames := if (m =? 0)%Z then frames ++ [cvtColor fr] else frames in
  Ok (frames, (frame_idx + 1)%Z).

(** [_load_video] once the capture is open. *)
Definition _load_video (self : t) (video_fps : R) (stream : list frame)
  : result t :=
  q <- py_div video_fps (IZR (target_fps self)) ;;
  let frame_skip := Z.max 1 (py_int q) in
  st <- for_each stream (read_step frame_skip) (frames self, 0%Z) ;;
  let frames := fst st in
  Ok (mk (target_fps self) frames (Z.of_nat (length frames))
         (current_frame_idx self)).

Definition get_frame (self : t) (time : R) : result frame :=
  if (frame_count self =? 0)%Z then Ok black
  else
    frame_idx <- py_mod (py_int (time * IZR (target_fps self)))
                   (frame_count self) ;;
    py_index (frames self) frame_idx.

End Frames.

Arguments mk {frame}.
Arguments target_fps {frame}.
Arguments frames {frame}.
Arguments frame_count {frame}.
Arguments current_frame_idx {frame}.
Arguments fresh {frame}.
Arguments read_step {frame}.
Arguments _load_video {frame}.
Arguments get_frame {frame}.

End VideoTexture.

(** ** class VideoMaskedText

    A letter is reduced to what the class reads back from it: its
    centre and its fill opacity, which [set_opacity] overwrites. *)

Module VideoMaskedText.

Record letter : Type := mk_letter {
  center : MetaballMobject.point3;
  opacity : R
}.

Definition set_opacity (l : letter) (o : R) : letter :=
  mk_letter (center l) o.

Record t : Type := mk {
  letters : list letter;
  letter_count : Z
}.

(** [__init__], given the letters of the [Text] mobject: every letter
    starts hidden. *)
Definition init (glyphs : list letter) : t :=
  mk (map (fun l => set_opacity l 0) glyphs) (Z.of_nat (length glyphs)).

(** [letters[index].set_opacity(o)] for an index already checked to be
    in range. *)
Fixpoint set_opacity_at (ls : list letter) (index : nat) (o : R)
  : list letter :=
  match ls, index with
  | [], _ => []
  | l :: rest, O => set_opacity l o :: rest
  | l :: rest, S k => l :: set_opacity_at rest k o
  end.

Definition reveal_letter (self : t) (index : Z) : t :=
  if (0 <=? index)%Z && (index <? letter_count self)%Z
  then mk (set_opacity_at (letters self) (Z.to_nat index) 1)
          (letter_count self)
  else self.

Definition hide_letter (self : t) (index : Z) : t :=
  if (0 <=? index)%Z && (index <? letter_count self)%Z
  then mk (set_opacity_at (letters self) (Z.to_nat index) 0)
          (letter_count self)
  else self.

Definition get_letter_center (self : t) (index : Z)
  : result MetaballMobject.point3 :=
  if (0 <=? index)%Z && (index <? letter_count self)%Z
  then l <- py_index (letters self) index ;; Ok (center l)
  else Ok MetaballMobject.ORIGIN.

(** [sum(1 for l in self.letters if l.get_fill_opacity() > 0.5)] *)
Definition get_revealed_count (self : t) : nat :=
  length (filter (fun l => py_gt (opacity l) 0.5) (letters self)).

End VideoMaskedText.

(** ** The scenes: blob shape per tick and typewriter timing *)

Module Scene.

Inductive shape : Type :=
| Ellipse (width height : R) (centre : MetaballMobject.point3) (angle : R)
| Circle (radius : R) (centre : MetaballMobject.point3).

Section Trig.

(** [np.arctan2] *)
Variable arctan2 : R -> R -> R.

(** The mobject [DEMHeroAnimation.phase_interactive] makes [blob_mob]
    become after one physics step, at scene time [time]. *)
Definition interactive_shape (physics : BlobPhysics.t) (time : R)
  : result shape :=
  let speed := sqrt (BlobPhysics.vx physics ^ 2 + BlobPhysics.vy physics ^ 2) in
  let position := (BlobPhysics.x physics, BlobPhysics.y physics, 0) in
  if py_gt speed 0.1 then
    let angle := arctan2 (BlobPhysics.vy physics) (BlobPhysics.vx physics) in
    let stretch := 1 + py_min (speed * 2) 0.5 in
    h <- py_div 1.5 stretch ;;
    Ok (Ellipse (1.5 * stretch * 2) (h * 2) position angle)
  else
    Ok (Circle (1.5 * (1 + 0.05 * sin (time * 3))) position).

(** The same step in [TestMetaball.construct]. *)
Definition test_shape (physics : BlobPhysics.t) : result shape :=
  let speed := sqrt (BlobPhysics.vx physics ^ 2 + BlobPhysics.vy physics ^ 2) in
  let position := (BlobPhysics.x physics, BlobPhysics.y physics, 0) in
  if py_gt speed 0.05 then
    let angle := arctan2 (BlobPhysics.vy physics) (BlobPhysics.vx physics) in
    let stretch := 1 + py_min (speed * 2) 0.5 in
    h <- py_div 1.5 stretch ;;
    Ok (Ellipse (1.5 * stretch * 2) (h * 2) position angle)
  else
    Ok (Circle 1.5 position).

End Trig.

(** The evaluator of [DEMHeroAnimation] once [phase_melt] has added
    its blob: [MetaballField(threshold=1.0)] with [add_blob(0, 0, 1.5)]. *)
Definition hero_field : MetaballField.t :=
  MetaballField.add_blob (MetaballField.init 1.0) 0 0 1.5.

(** The [run_time] arguments of the [self.play] calls of
    [phase_entry], in order. *)
Definition phase_entry_run_times (letter_count : Z) : result (list R) :=
  let reveal_duration := 2.0 in
  letter_delay <- py_div reveal_duration (IZR letter_count) ;;
  for_each (range letter_count)
    (fun i played => Ok (played ++ [letter_delay * 0.6; letter_delay * 0.4]))
    [].

End Scene.

(** ** A body held on a fixed target *)

Module Settle.

(** [n] successive [update(target_x, target_y, dt)] calls. *)
Definition hold (self : BlobPhysics.t) (target_x target_y dt : R) (n : nat)
  : BlobPhysics.t :=
  Nat.iter n (fun s => BlobPhysics.update s target_x target_y dt) self.

(** A quadratic form in one axis' velocity [v] and offset from the
    target [e]. *)
Definition energy (v e : R) : R :=
  0.85 * v ^ 2 - 0.082 * v * e + 0.068 * e ^ 2.

Definition energy_x (self : BlobPhysics.t) (target_x : R) : R :=
  energy (BlobPhysics.vx self) (target_x - BlobPhysics.x self).

Definition energy_y (self : BlobPhysics.t) (target_y : R) : R :=
  energy (BlobPhysics.vy self) (target_y - BlobPhysics.y self).

End Settle.

(** * Properties *)

(** ** The result monad and the loops *)

Lemma py_div_nonzero (a b : R) : b <> 0 -> py_div a b = Ok (a / b).
Proof.
  intros Hb. unfold py_div. destruct (Req_dec_T b 0); [contradiction | reflexivity].
Qed.

Lemma py_div_zero (a : R) : py_div a 0 = Raise ZeroDivisionError.
Proof.
  unfold py_div. destruct (Req_dec_T 0 0) as [_ | H]; [reflexivity | now elim H].
Qed.

Lemma py_ge_true (a b : R) : py_ge a b = true <-> a >= b.
Proof.
  unfold py_ge. destruct (Rge_dec a b); split; intros; try easy.
Qed.

Lemma py_min_Rmin (a b : R) : py_min a b = Rmin a b.
Proof.
  unfold py_min, Rmin.
  destruct (Rlt_dec b a), (Rle_dec a b); try reflexivity; lra.
Qed.

Lemma range_spec (n i : Z) : In i (range n) <-> (0 <= i < n)%Z.
Proof.
  unfold range. rewrite in_map_iff. split.
  - intros (k & <- & Hk). apply in_seq in Hk. lia.
  - intros Hi. exists (Z.to_nat i). split; [lia | apply in_seq; lia].
Qed.

(** A loop whose body only ever appends what [emit] says is a
    [flat_map]. *)
Lemma for_each_append {A B : Type} (emit : A -> list B)
  (body : A -> list B -> result (list B)) (l : list A) :
  (forall a acc, In a l -> body a acc = Ok (acc ++ emit a)) ->
  forall acc, for_each l body acc = Ok (acc ++ flat_map emit l).
Proof.
  induction l as [| a l IH]; intros Hbody acc; simpl.
  - now rewrite app_nil_r.
  - rewrite Hbody by now left. simpl.
    rewrite IH by (intros; apply Hbody; now right).
    now rewrite app_assoc.
Qed.

(** ** Field evaluation *)

Section FieldFacts.

Import MetaballField.

Lemma dist_sq_pos (dx dy : R) : 0 < dx * dx + dy * dy + 0.0001.
Proof. nra. Qed.

Lemma field_step_ok (x y : R) (b : blob) (total : R) :
  field_step x y b total = Ok (total + Spec.source_term x y b).
Proof.
  destruct b as [[bx by_] r]. unfold field_step, Spec.source_term, Spec.eps.
  rewrite py_div_nonzero by (pose proof (dist_sq_pos (x - bx) (y - by_)); lra).
  simpl. f_equal. f_equal. f_equal; lra.
Qed.

Lemma field_loop_ok (x y : R) (bs : list blob) :
  forall total,
    for_each bs (field_step x y) total = Ok (total + Spec.field_sum x y bs).
Proof.
  induction bs as [| b bs IH]; intros total; simpl.
  - f_equal. lra.
  - rewrite field_step_ok. simpl. rewrite IH. f_equal. lra.
Qed.

Lemma field_value_ok (f : t) (x y : R) :
  field_value f x y = Ok (Spec.field_sum x y (blobs f)).
Proof.
  unfold field_value. rewrite field_loop_ok. f_equal. lra.
Qed.

Lemma is_inside_ok (f : t) (x y : R) :
  is_inside f x y = Ok (Spec.inside f x y).
Proof.
  unfold is_inside. now rewrite field_value_ok.
Qed.

Lemma field_sum_app (x y : R) (bs cs : list blob) :
  Spec.field_sum x y (bs ++ cs) = Spec.field_sum x y bs + Spec.field_sum x y cs.
Proof.
  induction bs as [| b bs IH]; simpl; [lra | rewrite IH; lra].
Qed.

Lemma source_term_nonneg (x y : R) (b : blob) : 0 <= Spec.source_term x y b.
Proof.
  destruct b as [[bx by_] r]. unfold Spec.source_term, Spec.eps.
  pose proof (pow2_ge_0 r). pose proof (pow2_ge_0 (x - bx)).
  pose proof (pow2_ge_0 (y - by_)).
  apply Rmult_le_pos; [lra |].
  apply Rlt_le, Rinv_0_lt_compat. lra.
Qed.

End FieldFacts.

(** C2: [field_value] returns, for every query point and source list,
    the sum over the sources of [radius² / (dx² + dy² + ε)] with
    [ε = 1e-4]; with an empty source list it returns 0 everywhere. *)
Theorem field_value_is_sum :
  (forall (f : MetaballField.t) (x y : R),
      MetaballField.field_value f x y
      = Ok (Spec.field_sum x y (MetaballField.blobs f)))
  /\ (forall (thr x y : R),
      MetaballField.field_value (MetaballField.clear_blobs (MetaballField.init thr)) x y
      = Ok 0).
Proof.
  split.
  - apply field_value_ok.
  - intros. now rewrite field_value_ok.
Qed.

(** C6: [is_inside] answers true exactly when the field value is at
    least the threshold; a point whose field value equals the threshold
    is inside. *)
Theorem is_inside_iff_ge :
  forall (f : MetaballField.t) (x y : R),
    (MetaballField.is_inside f x y = Ok true <->
     exists v, MetaballField.field_value f x y = Ok v
               /\ v >= MetaballField.threshold f)
    /\ (forall v, MetaballField.field_value f x y = Ok v ->
                  MetaballField.is_inside
                    (MetaballField.mk v (MetaballField.blobs f)) x y = Ok true).
Proof.
  intros f x y. split; [split |].
  - intros H. rewrite is_inside_ok in H. injection H as H.
    exists (Spec.field_sum x y (MetaballField.blobs f)). split.
    + apply field_value_ok.
    + now apply py_ge_true.
  - intros (v & Hv & Hge). rewrite field_value_ok in Hv. injection Hv as <-.
    rewrite is_inside_ok. f_equal. now apply py_ge_true.
  - intros v Hv. rewrite field_value_ok in Hv. injection Hv as <-.
    rewrite is_inside_ok. f_equal. apply py_ge_true. simpl. lra.
Qed.

(** The field of one source of radius 1 at its own centre is
    [1 / 1e-4]; an evaluator whose threshold is that value classifies
    the centre inside. *)
Lemma is_inside_iff_ge_tie :
  MetaballField.is_inside (MetaballField.mk 10000 [(0, 0, 1)]) 0 0 = Ok true.
Proof.
  pose (f := MetaballField.mk 10000 [(0, 0, 1)]).
  destruct (is_inside_iff_ge f 0 0) as [[_ H] _]. apply H.
  exists (Spec.field_sum 0 0 (MetaballField.blobs f)). split.
  - apply field_value_ok.
  - simpl. unfold Spec.eps. lra.
Defined.

(** ** A single source and the threshold *)

Lemma single_source_field (thr bx by_ r x y : R) :
  MetaballField.field_value (MetaballField.mk thr [(bx, by_, r)]) x y
  = Ok (r ^ 2 / ((x - bx) ^ 2 + (y - by_) ^ 2 + Spec.eps)).
Proof.
  rewrite field_value_ok. simpl. f_equal. lra.
Qed.

(** C7, as stated, fails: with the default threshold 1 and a source of
    radius 1.5 at the origin, the point [(1.49999, 0)] lies strictly
    inside the radius, yet its field value is below the threshold (the
    [ε] in the denominator pushes it under 1). *)
Lemma inside_radius_below_threshold :
  let f := MetaballField.add_blob (MetaballField.init 1) 0 0 1.5 in
  0 < 1.5
  /\ MetaballField.threshold f <= 1
  /\ sqrt ((1.49999 - 0) ^ 2 + (0 - 0) ^ 2) < 1.5
  /\ exists v, MetaballField.field_value f 1.49999 0 = Ok v
               /\ ~ v >= MetaballField.threshold f.
Proof.
  cbv zeta. repeat split; try (simpl; lra).
  - assert (H : sqrt (1.5 ^ 2) = 1.5)
      by (rewrite <- Rsqr_pow2; apply sqrt_Rsqr; lra).
    rewrite <- H. apply sqrt_lt_1_alt. lra.
  - eexists. split.
    + unfold MetaballField.add_blob, MetaballField.init. simpl.
      apply single_source_field.
    + simpl. unfold Spec.eps. lra.
Qed.

(** C7, amended: for a single source of radius [r > 0] and a threshold
    at most 1, every point whose squared distance from the source centre
    is at most [r² - ε] has a field value at least the threshold. *)
Theorem single_source_inside (thr bx by_ r x y : R) :
  0 < r ->
  thr <= 1 ->
  (x - bx) ^ 2 + (y - by_) ^ 2 + Spec.eps <= r ^ 2 ->
  exists v,
    MetaballField.field_value (MetaballField.mk thr [(bx, by_, r)]) x y = Ok v
    /\ v >= thr.
Proof.
  intros Hr Hthr Hd. eexists. split; [apply single_source_field |].
  set (D := (x - bx) ^ 2 + (y - by_) ^ 2 + Spec.eps) in *.
  assert (HD : 0 < D).
  { unfold D, Spec.eps. pose proof (pow2_ge_0 (x - bx)).
    pose proof (pow2_ge_0 (y - by_)). lra. }
  assert (1 <= r ^ 2 / D); [| lra].
  replace 1 with (D / D) by (field; lra).
  unfold Rdiv. apply Rmult_le_compat_r; [| exact Hd].
  apply Rlt_le, Rinv_0_lt_compat, HD.
Qed.

Lemma single_source_inside_witness :
  exists v,
    MetaballField.field_value (MetaballField.mk 1 [(0, 0, 1.5)]) 1 0 = Ok v
    /\ v >= 1.
Proof.
  apply (single_source_inside 1 0 0 1.5 1 0); unfold Spec.eps; lra.
Defined.

(** ** Sources with a non-positive radius *)

(** C8, as stated, fails: a source of radius [-1] at the origin
    contributes [(-1)² / ε = 10000], not zero, at its own centre. *)
Lemma negative_radius_contributes :
  -1 <= 0
  /\ MetaballField.field_value
       (MetaballField.add_blob (MetaballField.init 1) 0 0 (-1)) 0 0
     = Ok 10000
  /\ 10000 <> 0.
Proof.
  repeat split; try lra.
  unfold MetaballField.add_blob, MetaballField.init. simpl.
  rewrite single_source_field. f_equal. unfold Spec.eps. lra.
Qed.

(** C8, amended: evaluating the field never raises, whatever the radii;
    adding a source of radius 0 leaves the field value unchanged at every
    query point; a source of negative radius [r] contributes the strictly
    positive amount [r² / (dx² + dy² + ε)], the same as radius [-r]. *)
Theorem degenerate_radius_contribution :
  forall (f : MetaballField.t) (bx by_ r x y : R),
    MetaballField.field_value (MetaballField.add_blob f bx by_ r) x y
    = Ok (Spec.field_sum x y (MetaballField.blobs f)
          + r ^ 2 / ((x - bx) ^ 2 + (y - by_) ^ 2 + Spec.eps))
    /\ MetaballField.field_value (MetaballField.add_blob f bx by_ 0) x y
       = MetaballField.field_value f x y
    /\ MetaballField.field_value (MetaballField.add_blob f bx by_ (- r)) x y
       = MetaballField.field_value (MetaballField.add_blob f bx by_ r) x y
    /\ (r < 0 -> 0 < r ^ 2 / ((x - bx) ^ 2 + (y - by_) ^ 2 + Spec.eps)).
Proof.
  intros f bx by_ r x y.
  assert (HD : 0 < (x - bx) ^ 2 + (y - by_) ^ 2 + Spec.eps).
  { unfold Spec.eps. pose proof (pow2_ge_0 (x - bx)).
    pose proof (pow2_ge_0 (y - by_)). lra. }
  repeat split.
  - rewrite field_value_ok. unfold MetaballField.add_blob. simpl.
    rewrite field_sum_app. simpl. f_equal. lra.
  - rewrite !field_value_ok. unfold MetaballField.add_blob. simpl.
    rewrite field_sum_app. simpl. f_equal. field. lra.
  - rewrite !field_value_ok. unfold MetaballField.add_blob. simpl.
    rewrite !field_sum_app. simpl. f_equal. field. lra.
  - intros Hr. apply Rdiv_lt_0_compat; [nra | exact HD].
Qed.

Lemma degenerate_radius_contribution_witness :
  0 < (-1) ^ 2 / ((0 - 0) ^ 2 + (0 - 0) ^ 2 + Spec.eps).
Proof.
  apply (degenerate_radius_contribution (MetaballField.init 1) 0 0 (-1) 0 0).
  lra.
Defined.

(** ** The spring update *)

Section UpdateFacts.

Import BlobPhysics.

Lemma speed_update (s : t) (target_x target_y dt : R) :
  speed (update s target_x target_y dt)
  = sqrt (((vx s + (target_x - x s) * stiffness s) * damping s) ^ 2
          + ((vy s + (target_y - y s) * stiffness s) * damping s) ^ 2).
Proof. reflexivity. Qed.

Lemma radius_update (s : t) (target_x target_y dt : R) :
  let s' := update s target_x target_y dt in
  radius s' = base_radius s * (1 + Rmin (speed s' / 0.5) (max_stretch s - 1) * 0.3).
Proof.
  cbv zeta. rewrite <- py_min_Rmin. reflexivity.
Qed.

Lemma speed_nonneg (s : t) : 0 <= speed s.
Proof. apply sqrt_pos. Qed.

Lemma tuned_update (s : t) (target_x target_y dt : R) :
  tuned s -> tuned (update s target_x target_y dt).
Proof. intros H. exact H. Qed.

Lemma tuned_drive (calls : list (R * R * R)) :
  forall s, tuned s -> tuned (drive s calls).
Proof.
  induction calls as [| [[tx ty] dt] calls IH]; intros s Hs; simpl.
  - exact Hs.
  - apply IH, tuned_update, Hs.
Qed.

(** A moving body with a positive base radius is stretched. *)
Lemma stretched_when_moving (s : t) (target_x target_y dt : R) :
  let s' := update s target_x target_y dt in
  0 < base_radius s -> 1 < max_stretch s -> 0 < speed s' ->
  radius s' > base_radius s'.
Proof.
  cbv zeta. intros Hb Hm Hv. rewrite radius_update.
  change (base_radius (update s target_x target_y dt)) with (base_radius s).
  set (v := speed (update s target_x target_y dt)) in *.
  assert (0 < Rmin (v / 0.5) (max_stretch s - 1)).
  { apply Rmin_glb_lt; lra. }
  nra.
Qed.

End UpdateFacts.

(** C1: on a body carrying the constructor's constants, [update]
    performs exactly the spring step, the damping step, the position
    step and the radius formula of the specification, and the resulting
    state is the same for every [dt]. *)
Theorem update_equations (s : BlobPhysics.t) (target_x target_y dt : R) :
  BlobPhysics.tuned s ->
  let stiffness := 0.08 in
  let damping := 0.85 in
  let maxStretch := 1.5 in
  let vx' := (BlobPhysics.vx s + (target_x - BlobPhysics.x s) * stiffness) * damping in
  let vy' := (BlobPhysics.vy s + (target_y - BlobPhysics.y s) * stiffness) * damping in
  BlobPhysics.update s target_x target_y dt
  = BlobPhysics.mk
      (BlobPhysics.x s + vx') (BlobPhysics.y s + vy') vx' vy'
      (BlobPhysics.base_radius s)
      (BlobPhysics.base_radius s
       * (1 + Rmin (sqrt (vx' ^ 2 + vy' ^ 2) / 0.5) (maxStretch - 1) * 0.3))
      stiffness damping maxStretch
  /\ forall dt' : R,
      BlobPhysics.update s target_x target_y dt'
      = BlobPhysics.update s target_x target_y dt.
Proof.
  intros (Hk & Hd & Hm). cbv zeta. split; [| reflexivity].
  unfold BlobPhysics.update. rewrite py_min_Rmin, Hk, Hd, Hm. reflexivity.
Qed.

Lemma update_equations_witness :
  BlobPhysics.update (BlobPhysics.init 0 0 1.5) 3 0 (1 / 60)
  = BlobPhysics.mk
      (0 + (0 + (3 - 0) * 0.08) * 0.85) (0 + (0 + (0 - 0) * 0.08) * 0.85)
      ((0 + (3 - 0) * 0.08) * 0.85) ((0 + (0 - 0) * 0.08) * 0.85)
      1.5
      (1.5 * (1 + Rmin (sqrt (((0 + (3 - 0) * 0.08) * 0.85) ^ 2
                              + ((0 + (0 - 0) * 0.08) * 0.85) ^ 2) / 0.5)
                    (1.5 - 1) * 0.3))
      0.08 0.85 1.5.
Proof.
  apply (update_equations (BlobPhysics.init 0 0 1.5) 3 0 (1 / 60)).
  repeat split.
Defined.

(** C3: after every [update] the radius satisfies
    [radius = base_radius * (1 + stretchFactor * 0.3)] with
    [stretchFactor = clamp(speed / 0.5, 0, max_stretch - 1)] and [speed]
    taken from the updated velocity.  The lower clamp bound is never
    active because [max_stretch] (1.5 on every constructed body) is at
    least 1 and a speed is never negative. *)
Theorem radius_invariant (s : BlobPhysics.t) (target_x target_y dt : R) :
  1 <= BlobPhysics.max_stretch s ->
  let s' := BlobPhysics.update s target_x target_y dt in
  let speed := sqrt (BlobPhysics.vx s' ^ 2 + BlobPhysics.vy s' ^ 2) in
  let stretchFactor := Spec.clamp (speed / 0.5) 0 (BlobPhysics.max_stretch s' - 1) in
  BlobPhysics.radius s' = BlobPhysics.base_radius s' * (1 + stretchFactor * 0.3).
Proof.
  intros Hm. cbv zeta. rewrite radius_update.
  change (BlobPhysics.base_radius (BlobPhysics.update s target_x target_y dt))
    with (BlobPhysics.base_radius s).
  change (BlobPhysics.max_stretch (BlobPhysics.update s target_x target_y dt))
    with (BlobPhysics.max_stretch s).
  fold (BlobPhysics.speed (BlobPhysics.update s target_x target_y dt)).
  set (v := BlobPhysics.speed (BlobPhysics.update s target_x target_y dt)).
  assert (Hv : 0 <= v) by apply speed_nonneg.
  unfold Spec.clamp. rewrite Rmax_right; [reflexivity |].
  apply Rmin_glb; lra.
Qed.

Lemma radius_invariant_witness :
  let s' := BlobPhysics.update (BlobPhysics.init 0 0 1.5) 3 0 (1 / 60) in
  BlobPhysics.radius s'
  = BlobPhysics.base_radius s'
    * (1 + Spec.clamp (sqrt (BlobPhysics.vx s' ^ 2 + BlobPhysics.vy s' ^ 2) / 0.5)
             0 (BlobPhysics.max_stretch s' - 1) * 0.3).
Proof.
  apply (radius_invariant (BlobPhysics.init 0 0 1.5) 3 0 (1 / 60)).
  simpl. lra.
Defined.

(** C10: [update] leaves [base_radius], [stiffness], [damping] and
    [max_stretch] as they were, so that a constructed body keeps
    [stiffness = 0.08], [damping = 0.85] and [max_stretch = 1.5] through
    any sequence of updates. *)
Theorem update_frame :
  (forall (s : BlobPhysics.t) (target_x target_y dt : R),
      let s' := BlobPhysics.update s target_x target_y dt in
      BlobPhysics.base_radius s' = BlobPhysics.base_radius s
      /\ BlobPhysics.stiffness s' = BlobPhysics.stiffness s
      /\ BlobPhysics.damping s' = BlobPhysics.damping s
      /\ BlobPhysics.max_stretch s' = BlobPhysics.max_stretch s)
  /\ (forall (x0 y0 radius0 : R) (calls : list (R * R * R)),
      let s := BlobPhysics.drive (BlobPhysics.init x0 y0 radius0) calls in
      BlobPhysics.stiffness s = 0.08
      /\ BlobPhysics.damping s = 0.85
      /\ BlobPhysics.max_stretch s = 1.5).
Proof.
  split.
  - intros. cbv zeta. repeat split.
  - intros. apply tuned_drive. repeat split.
Qed.

(** ** The grid scan *)

Section ScanFacts.

Import MetaballField.

(** [not all(corners) and any(corners)] says that the four corners
    disagree. *)
Lemma corners_disagree (c0 c1 c2 c3 : bool) :
  negb (all [c0; c1; c2; c3]) && any [c0; c1; c2; c3]
  = negb (Spec.all_equal c0 c1 c2 c3).
Proof. destruct c0, c1, c2, c3; reflexivity. Qed.

Lemma cell_step_ok (f : t) (x_min x_max y_min y_max : R) (resolution i j : Z)
  (acc : list (R * R)) :
  cell_step f x_min y_min
    (Spec.stepX x_min x_max resolution) (Spec.stepY y_min y_max resolution)
    i j acc
  = Ok (acc ++ Spec.emit f x_min x_max y_min y_max resolution i j).
Proof.
  unfold cell_step. rewrite !is_inside_ok. cbn [bind].
  rewrite corners_disagree. unfold Spec.emit, Spec.straddles, Spec.center.
  fold (Spec.cornerX x_min x_max resolution i).
  fold (Spec.cornerY y_min y_max resolution j).
  destruct (negb _); [reflexivity | now rewrite app_nil_r].
Qed.

Lemma get_boundary_points_ok (f : t) (x_min x_max y_min y_max : R)
  (resolution : Z) :
  resolution <> 0%Z ->
  get_boundary_points f resolution (x_min, x_max, y_min, y_max)
  = Ok (Spec.boundary_cloud f x_min x_max y_min y_max resolution).
Proof.
  intros Hres. unfold get_boundary_points.
  assert (Hnz : IZR resolution <> 0) by (now apply not_0_IZR).
  rewrite !py_div_nonzero by exact Hnz. cbn [bind].
  fold (Spec.stepX x_min x_max resolution).
  fold (Spec.stepY y_min y_max resolution).
  rewrite for_each_append
    with (emit := fun i => flat_map
                    (Spec.emit f x_min x_max y_min y_max resolution i)
                    (range resolution)).
  - reflexivity.
  - intros i acc _. apply for_each_append. intros j acc' _.
    apply cell_step_ok.
Qed.

Lemma get_boundary_points_zero (f : t) (bounds : R * R * R * R) :
  get_boundary_points f 0 bounds = Raise ZeroDivisionError.
Proof.
  destruct bounds as [[[x_min x_max] y_min] y_max].
  unfold get_boundary_points. now rewrite py_div_zero.
Qed.

Lemma boundary_cloud_spec (f : t) (x_min x_max y_min y_max : R)
  (resolution : Z) (p : R * R) :
  In p (Spec.boundary_cloud f x_min x_max y_min y_max resolution) <->
  exists i j : Z,
    (0 <= i < resolution)%Z /\ (0 <= j < resolution)%Z
    /\ Spec.straddles f x_min x_max y_min y_max resolution i j = true
    /\ p = Spec.center x_min x_max y_min y_max resolution i j.
Proof.
  unfold Spec.boundary_cloud. rewrite in_flat_map. split.
  - intros (i & Hi & Hp). apply in_flat_map in Hp as (j & Hj & Hp).
    apply range_spec in Hi, Hj. exists i, j. unfold Spec.emit in Hp.
    destruct (Spec.straddles _ _ _ _ _ _ i j); [| contradiction].
    destruct Hp as [<- | []]. auto.
  - intros (i & j & Hi & Hj & Hs & ->). exists i. split; [now apply range_spec |].
    apply in_flat_map. exists j. split; [now apply range_spec |].
    unfold Spec.emit. rewrite Hs. now left.
Qed.

End ScanFacts.

(** C4: for a positive resolution the scan returns, in scan order, the
    centres [(x + stepX/2, y + stepY/2)] of exactly those of the
    [resolution × resolution] cells whose four corner classifications
    [(x, y)], [(x+stepX, y)], [(x+stepX, y+stepY)], [(x, y+stepY)] are not
    all equal, with [x = xMin + i*stepX], [y = yMin + j*stepY]; cells
    whose corners agree emit nothing. *)
Theorem boundary_scan_cells (f : MetaballField.t)
  (x_min x_max y_min y_max : R) (resolution : Z) :
  (0 < resolution)%Z ->
  exists cloud : list (R * R),
    MetaballField.get_boundary_points f resolution (x_min, x_max, y_min, y_max)
    = Ok cloud
    /\ cloud = Spec.boundary_cloud f x_min x_max y_min y_max resolution
    /\ (forall p : R * R,
          In p cloud <->
          exists i j : Z,
            (0 <= i < resolution)%Z /\ (0 <= j < resolution)%Z
            /\ p = Spec.center x_min x_max y_min y_max resolution i j
            /\ Spec.all_equal
                 (Spec.inside f (Spec.cornerX x_min x_max resolution i)
                    (Spec.cornerY y_min y_max resolution j))
                 (Spec.inside f
                    (Spec.cornerX x_min x_max resolution i
                     + Spec.stepX x_min x_max resolution)
                    (Spec.cornerY y_min y_max resolution j))
                 (Spec.inside f
                    (Spec.cornerX x_min x_max resolution i
                     + Spec.stepX x_min x_max resolution)
                    (Spec.cornerY y_min y_max resolution j
                     + Spec.stepY y_min y_max resolution))
                 (Spec.inside f (Spec.cornerX x_min x_max resolution i)
                    (Spec.cornerY y_min y_max resolution j
                     + Spec.stepY y_min y_max resolution))
               = false)
    /\ (forall x y : R,
          MetaballField.is_inside f x y = Ok (Spec.inside f x y)).
Proof.
  intros Hres. eexists. split; [apply get_boundary_points_ok; lia |].
  split; [reflexivity |]. split; [| intros; apply is_inside_ok].
  intros p. rewrite boundary_cloud_spec. unfold Spec.straddles.
  split; intros (i & j & Hi & Hj & H).
  - exists i, j. destruct H as [Hs ->]. repeat split; try easy.
    now apply negb_true_iff in Hs.
  - exists i, j. destruct H as [-> Hs]. repeat split; try easy.
    now apply negb_true_iff.
Qed.

Lemma boundary_scan_cells_witness :
  exists cloud : list (R * R),
    MetaballField.get_boundary_points
      (MetaballField.add_blob (MetaballField.init 1) 0 0 1.5) 80
      (-8, 8, -4.5, 4.5)
    = Ok cloud
    /\ cloud = Spec.boundary_cloud
                 (MetaballField.add_blob (MetaballField.init 1) 0 0 1.5)
                 (-8) 8 (-4.5) 4.5 80.
Proof.
  destruct (boundary_scan_cells
              (MetaballField.add_blob (MetaballField.init 1) 0 0 1.5)
              (-8) 8 (-4.5) 4.5 80) as (cloud & H1 & H2 & _).
  - lia.
  - exists cloud. now split.
Defined.

(** ** Fallbacks of [generate_points] *)

(** C5, as stated, fails: a mobject built with [resolution = 0] makes
    the scan divide by zero, and [generate_points] lets the
    [ZeroDivisionError] escape (the scan runs before the [try] block);
    here with a hull routine that always fails. *)
Lemma generate_points_raises :
  MetaballMobject.generate_points
    (fun _ => Raise LibraryError) (fun pts => Ok pts) (fun _ => [])
    (MetaballMobject.mk (MetaballField.init 1) 0 [])
  = Raise ZeroDivisionError.
Proof.
  unfold MetaballMobject.generate_points.
  cbn [MetaballMobject.metaball_field MetaballMobject.resolution].
  now rewrite get_boundary_points_zero.
Qed.

Ltac finish_fallback :=
  repeat split; intros; try reflexivity; try lia; try discriminate.

(** C5, amended: for every evaluator state and every non-zero
    resolution, [generate_points] returns normally; when the boundary
    cloud has fewer than 3 points the mobject's points are the
    single-point placeholder [[ORIGIN]], and when hull construction
    raises they are the points of the unit circle. *)
Theorem generate_points_returns
  (ConvexHull : list (R * R) -> result (list nat))
  (smooth_path : list MetaballMobject.point3 -> result (list MetaballMobject.point3))
  (Circle_points : R -> list MetaballMobject.point3)
  (self : MetaballMobject.t) :
  MetaballMobject.resolution self <> 0%Z ->
  exists (boundary : list (R * R)) (self' : MetaballMobject.t),
    MetaballField.get_boundary_points (MetaballMobject.metaball_field self)
      (MetaballMobject.resolution self) (-8, 8, -4.5, 4.5) = Ok boundary
    /\ MetaballMobject.generate_points ConvexHull smooth_path Circle_points self
       = Ok self'
    /\ MetaballMobject.metaball_field self' = MetaballMobject.metaball_field self
    /\ MetaballMobject.resolution self' = MetaballMobject.resolution self
    /\ ((length boundary < 3)%nat ->
        MetaballMobject.points self' = [MetaballMobject.ORIGIN])
    /\ ((3 <= length boundary)%nat ->
        forall e, ConvexHull boundary = Raise e ->
                  MetaballMobject.points self' = Circle_points 1).
Proof.
  intros Hres.
  pose proof (get_boundary_points_ok (MetaballMobject.metaball_field self)
                (-8) 8 (-4.5) 4.5 _ Hres) as Hscan.
  unfold MetaballMobject.generate_points. rewrite Hscan. cbn [bind].
  set (boundary := Spec.boundary_cloud _ _ _ _ _ _).
  exists boundary.
  destruct (Nat.ltb_spec (length boundary) 3) as [Hlt | Hge].
  - eexists. split; [reflexivity |]. split; [reflexivity |]. finish_fallback.
  - destruct (ConvexHull boundary) as [vertices | e] eqn:Hhull; cbn [bind].
    + destruct (MetaballMobject.take_rows boundary vertices)
        as [hull_points | e]; cbn [bind try_except].
      * destruct (smooth_path _) as [pts | e]; cbn [bind try_except];
          eexists; (split; [reflexivity |]); (split; [reflexivity |]);
          finish_fallback.
      * eexists. split; [reflexivity |]. split; [reflexivity |].
        finish_fallback.
    + cbn [try_except]. eexists. split; [reflexivity |]. split; [reflexivity |].
      finish_fallback.
Qed.

Lemma generate_points_returns_witness :
  exists (boundary : list (R * R)) (self' : MetaballMobject.t),
    MetaballField.get_boundary_points (MetaballField.init 1) 80
      (-8, 8, -4.5, 4.5) = Ok boundary
    /\ MetaballMobject.generate_points
         (fun _ => Raise LibraryError) (fun pts => Ok pts) (fun _ => [])
         (MetaballMobject.mk (MetaballField.init 1) 80 [])
       = Ok self'.
Proof.
  destruct (generate_points_returns
              (fun _ => Raise LibraryError) (fun pts => Ok pts) (fun _ => [])
              (MetaballMobject.mk (MetaballField.init 1) 80 []))
    as (boundary & self' & H1 & H2 & _).
  - discriminate.
  - exists boundary, self'. now split.
Defined.

(** ** The 60-tick scenario *)

Section ScenarioFacts.

Import BlobPhysics.

Lemma run_S (n : nat) : run (S n) = tick (run n).
Proof. reflexivity. Qed.

Lemma runQ_S (n : nat) : Trace.runQ (S n) = Trace.tickQ (Trace.runQ n).
Proof. reflexivity. Qed.

Lemma Q2R_3 : Q2R 3 = 3.
Proof. unfold Q2R. simpl. lra. Qed.

(** One rational tick is one real tick of the velocity and position. *)
Lemma tickQ_R (qx qv : Q) :
  Q2R (snd (Trace.tickQ (qx, qv))) = (Q2R qv + (3 - Q2R qx) * 0.08) * 0.85
  /\ Q2R (fst (Trace.tickQ (qx, qv)))
     = Q2R qx + (Q2R qv + (3 - Q2R qx) * 0.08) * 0.85.
Proof.
  unfold Trace.tickQ. cbn [fst snd].
  assert (Hv : Q2R (Qred ((qv + (3 - qx) * 0.08) * 0.85))
               = (Q2R qv + (3 - Q2R qx) * 0.08) * 0.85).
  { rewrite (Qeq_eqR _ _ (Qred_correct _)).
    rewrite Q2R_mult, Q2R_plus, Q2R_mult, Q2R_minus, Q2R_3. reflexivity. }
  split; [exact Hv |].
  rewrite (Qeq_eqR _ _ (Qred_correct _)), Q2R_plus, Hv. reflexivity.
Qed.

(** The scenario stays on the x axis and follows the rational trace. *)
Lemma run_trace (n : nat) :
  x (run n) = Q2R (Trace.posQ n)
  /\ vx (run n) = Q2R (Trace.velQ n)
  /\ y (run n) = 0 /\ vy (run n) = 0
  /\ base_radius (run n) = 1.5
  /\ tuned (run n).
Proof.
  induction n as [| n (Hx & Hv & Hy & Hvy & Hb & Hk & Hd & Hm)].
  - unfold run, Trace.posQ, Trace.velQ, Trace.runQ. cbn [Nat.iter init x vx y vy
      base_radius fst snd]. repeat split; unfold Q2R; simpl; lra.
  - rewrite run_S. unfold Trace.posQ, Trace.velQ. rewrite runQ_S.
    destruct (tickQ_R (Trace.posQ n) (Trace.velQ n)) as [Hv' Hx'].
    unfold Trace.posQ, Trace.velQ in Hv', Hx'.
    rewrite <- surjective_pairing in Hv', Hx'. rewrite Hv', Hx'.
    fold (Trace.posQ n) (Trace.velQ n). rewrite <- Hx, <- Hv.
    unfold tick, update.
    cbn [x vx y vy base_radius stiffness damping max_stretch].
    rewrite Hk, Hd, Hy, Hvy. repeat split; try lra; assumption.
Qed.

Lemma holds_along_spec (P : Q * Q -> Q * Q -> bool) (n : nat) :
  forall m : nat,
    Trace.holds_along P (Trace.runQ m) n = true ->
    forall k : nat, (m < k <= m + n)%nat ->
                    P (Trace.runQ (k - 1)) (Trace.runQ k) = true.
Proof.
  induction n as [| n IH]; intros m H k Hk; [lia |].
  cbn [Trace.holds_along] in H. apply andb_true_iff in H as [Hhd Htl].
  destruct (Nat.eq_dec k (S m)) as [-> | Hne].
  - replace (S m - 1)%nat with m by lia. rewrite runQ_S. exact Hhd.
  - apply (IH (S m)); [rewrite runQ_S; exact Htl | lia].
Qed.

Lemma rising_12 : Trace.holds_along Trace.rising (Trace.runQ 0) 12 = true.
Proof. vm_compute. reflexivity. Qed.

Lemma within_60 :
  Trace.holds_along (Trace.within 0 4.13) (Trace.runQ 0) 60 = true.
Proof. vm_compute. reflexivity. Qed.

(** Order facts about the rational trace carry over to the body;
    stated for a variable tick so that the trajectory is never
    unfolded. *)
Lemma pos_lt (m n : nat) :
  (Trace.posQ m < Trace.posQ n)%Q -> x (run m) < x (run n).
Proof.
  intros H. destruct (run_trace m) as [-> _]. destruct (run_trace n) as [-> _].
  now apply Qlt_Rlt.
Qed.

Lemma pos_gt_bound (q : Q) (n : nat) :
  (q < Trace.posQ n)%Q -> Q2R q < x (run n).
Proof.
  intros H. destruct (run_trace n) as [-> _]. now apply Qlt_Rlt.
Qed.

Lemma pos_within (lo hi : Q) (n : nat) :
  Qle_bool lo (Trace.posQ n) && Qle_bool (Trace.posQ n) hi = true ->
  Q2R lo <= x (run n) <= Q2R hi.
Proof.
  intros H. apply andb_true_iff in H as [Hlo Hhi].
  apply Qle_bool_iff, Qle_Rle in Hlo, Hhi.
  destruct (run_trace n) as [-> _]. now split.
Qed.

End ScenarioFacts.

(** C9, as stated, fails: in the scenario [x] passes the bound
    [3 * (1/damping)] at tick 9 and turns back at tick 13, so it neither
    stays under the bound nor approaches 3 monotonically. *)
Lemma scenario_overshoots :
  BlobPhysics.x (BlobPhysics.run 9) > 3 * (1 / 0.85)
  /\ BlobPhysics.x (BlobPhysics.run 13) < BlobPhysics.x (BlobPhysics.run 12).
Proof.
  split.
  - assert (Hb : 3 * (1 / 0.85) = Q2R (60 # 17))
      by (unfold Q2R; simpl; lra).
    apply Rlt_gt. apply Rle_lt_trans with (Q2R (60 # 17)).
    + right. exact Hb.
    + apply (pos_gt_bound (60 # 17) 9). vm_compute. reflexivity.
  - apply (pos_lt 13 12). vm_compute. reflexivity.
Qed.

(** C9, amended: over the 60 ticks of the scenario, [x] increases
    strictly during the first 12 ticks, stays between 0 and 4.13 on every
    tick, and the radius exceeds the base radius on every tick where the
    speed exceeds 0.05. *)
Theorem scenario_trace (n : nat) :
  (1 <= n <= 60)%nat ->
  ((n <= 12)%nat ->
   BlobPhysics.x (BlobPhysics.run (n - 1)) < BlobPhysics.x (BlobPhysics.run n))
  /\ 0 <= BlobPhysics.x (BlobPhysics.run n) <= 4.13
  /\ (BlobPhysics.speed (BlobPhysics.run n) > 0.05 ->
      BlobPhysics.radius (BlobPhysics.run n)
      > BlobPhysics.base_radius (BlobPhysics.run n)).
Proof.
  intros Hn. split; [| split].
  - intros H12. apply pos_lt.
    assert (H : Trace.rising (Trace.runQ (n - 1)) (Trace.runQ n) = true)
      by (apply (holds_along_spec Trace.rising 12 0 rising_12); lia).
    unfold Trace.rising in H. rewrite Qlt_alt. unfold Trace.posQ.
    destruct (fst (Trace.runQ (n - 1)) ?= fst (Trace.runQ n))%Q;
      [discriminate | reflexivity | discriminate].
  - assert (H : Trace.within 0 4.13 (Trace.runQ (n - 1)) (Trace.runQ n) = true)
      by (apply (holds_along_spec (Trace.within 0 4.13) 60 0 within_60); lia).
    apply (pos_within 0 4.13 n) in H. destruct H as [Hlo Hhi].
    split; [| exact Hhi].
    apply Rle_trans with (Q2R 0); [| exact Hlo].
    right. unfold Q2R. simpl. lra.
  - intros Hv. destruct n as [| n]; [lia |].
    destruct (run_trace n) as (_ & _ & _ & _ & Hb & _ & _ & Hm).
    rewrite run_S in Hv |- *. unfold BlobPhysics.tick in Hv |- *.
    apply stretched_when_moving; lra.
Qed.

Lemma scenario_trace_witness :
  BlobPhysics.x (BlobPhysics.run (12 - 1)) < BlobPhysics.x (BlobPhysics.run 12)
  /\ 0 <= BlobPhysics.x (BlobPhysics.run 12) <= 4.13.
Proof.
  assert (Hn : (1 <= 12 <= 60)%nat) by lia.
  pose proof (scenario_trace 12 Hn) as H.
  split.
  - exact (proj1 H (le_n 12)).
  - exact (proj1 (proj2 H)).
Defined.

(** * Further properties of the code *)

(** ** The field and its mutators *)

Section FieldExtras.

Import MetaballField.

Lemma field_sum_nonneg (x y : R) (bs : list blob) :
  0 <= Spec.field_sum x y bs.
Proof.
  induction bs as [| b bs IH]; simpl; [lra |].
  pose proof (source_term_nonneg x y b). lra.
Qed.

Lemma flat_map_nil {A B : Type} (g : A -> list B) (l : list A) :
  (forall a, In a l -> g a = []) -> flat_map g l = [].
Proof.
  induction l as [| a l IH]; intros H; simpl; [reflexivity |].
  rewrite (H a) by now left. apply IH. intros; apply H; now right.
Qed.

Lemma length_flat_map_le {A B : Type} (g : A -> list B) (k : nat)
  (l : list A) :
  (forall a, (length (g a) <= k)%nat) ->
  (length (flat_map g l) <= k * length l)%nat.
Proof.
  intros H. induction l as [| a l IH]; simpl; [lia |].
  rewrite length_app. specialize (H a). lia.
Qed.

Lemma length_range (n : Z) : length (range n) = Z.to_nat n.
Proof. unfold range. now rewrite length_map, length_seq. Qed.

(** A field that classifies every point alike has no boundary cell. *)
Lemma boundary_cloud_uniform (f : t) (x_min x_max y_min y_max : R)
  (resolution : Z) (b : bool) :
  (forall x y, Spec.inside f x y = b) ->
  Spec.boundary_cloud f x_min x_max y_min y_max resolution = [].
Proof.
  intros H. unfold Spec.boundary_cloud.
  apply flat_map_nil. intros i _. apply flat_map_nil. intros j _.
  unfold Spec.emit, Spec.straddles. rewrite !H.
  now destruct b.
Qed.

Lemma inside_nonpositive_threshold (f : t) (x y : R) :
  threshold f <= 0 -> Spec.inside f x y = true.
Proof.
  intros H. unfold Spec.inside. apply py_ge_true.
  pose proof (field_sum_nonneg x y (blobs f)). lra.
Qed.

Lemma inside_no_sources (f : t) (x y : R) :
  blobs f = [] -> 0 < threshold f -> Spec.inside f x y = false.
Proof.
  intros Hb H. unfold Spec.inside. rewrite Hb. simpl.
  unfold py_ge. destruct (Rge_dec 0 (threshold f)); [lra | reflexivity].
Qed.

End FieldExtras.

(** X1: the field value is never negative, whatever the sources (radii
    of either sign) and the query point. *)
Theorem field_value_nonneg (f : MetaballField.t) (x y : R) :
  exists v, MetaballField.field_value f x y = Ok v /\ 0 <= v.
Proof.
  eexists. split; [apply field_value_ok | apply field_sum_nonneg].
Qed.

(** X2: adding a source never lowers the field value at any point, so
    a point that was inside stays inside. *)
Theorem add_blob_monotone (f : MetaballField.t) (bx by_ r x y : R) :
  (exists v v',
      MetaballField.field_value f x y = Ok v
      /\ MetaballField.field_value (MetaballField.add_blob f bx by_ r) x y = Ok v'
      /\ v <= v')
  /\ (MetaballField.is_inside f x y = Ok true ->
      MetaballField.is_inside (MetaballField.add_blob f bx by_ r) x y = Ok true).
Proof.
  assert (Hle : Spec.field_sum x y (MetaballField.blobs f)
                <= Spec.field_sum x y
                     (MetaballField.blobs (MetaballField.add_blob f bx by_ r))).
  { unfold MetaballField.add_blob. simpl. rewrite field_sum_app. simpl.
    pose proof (source_term_nonneg x y (bx, by_, r)) as H. simpl in H. lra. }
  split.
  - do 2 eexists. repeat split; [apply field_value_ok .. | exact Hle].
  - rewrite !is_inside_ok. intros H. injection H as H. f_equal.
    unfold Spec.inside in *. apply py_ge_true in H. apply py_ge_true.
    change (MetaballField.threshold (MetaballField.add_blob f bx by_ r))
      with (MetaballField.threshold f). lra.
Qed.

Lemma add_blob_monotone_witness :
  MetaballField.is_inside
    (MetaballField.add_blob (MetaballField.mk 10000 [(0, 0, 1)]) 5 5 2) 0 0
  = Ok true.
Proof.
  apply (add_blob_monotone (MetaballField.mk 10000 [(0, 0, 1)]) 5 5 2 0 0).
  rewrite is_inside_ok. f_equal. apply py_ge_true. simpl. unfold Spec.eps. lra.
Defined.

(** X3: clearing the evaluator and then adding sources one by one gives
    the same evaluator as [set_blobs] with the whole list; the threshold
    is untouched by all three mutators. *)
Theorem add_blobs_is_set_blobs (f : MetaballField.t)
  (bs : list MetaballField.blob) :
  fold_left (fun g '(x, y, r) => MetaballField.add_blob g x y r) bs
    (MetaballField.clear_blobs f)
  = MetaballField.set_blobs f bs
  /\ MetaballField.threshold (MetaballField.set_blobs f bs)
     = MetaballField.threshold f.
Proof.
  split; [| reflexivity].
  unfold MetaballField.clear_blobs, MetaballField.set_blobs.
  change bs with ([] ++ bs) at 2.
  generalize (@nil MetaballField.blob) as acc.
  induction bs as [| [[bx by_] r] bs IH]; intros acc; simpl.
  - now rewrite app_nil_r.
  - unfold MetaballField.add_blob at 2. simpl.
    rewrite IH, <- app_assoc. reflexivity.
Qed.

(** X4: for a single source the field falls off with distance: a query
    point at least as far from the centre (in squared distance) has a
    field value no larger, the maximum [r² / 1e-4] is taken at the
    centre, and a point nearer than an inside point is inside. *)
Theorem single_source_falloff (thr bx by_ r x1 y1 x2 y2 : R) :
  (x1 - bx) ^ 2 + (y1 - by_) ^ 2 <= (x2 - bx) ^ 2 + (y2 - by_) ^ 2 ->
  let f := MetaballField.mk thr [(bx, by_, r)] in
  (exists v1 v2,
      MetaballField.field_value f x1 y1 = Ok v1
      /\ MetaballField.field_value f x2 y2 = Ok v2
      /\ v2 <= v1 /\ v1 <= r ^ 2 / 1e-4)
  /\ MetaballField.field_value f bx by_ = Ok (r ^ 2 / 1e-4)
  /\ (MetaballField.is_inside f x2 y2 = Ok true ->
      MetaballField.is_inside f x1 y1 = Ok true).
Proof.
  intros Hd. cbv zeta.
  set (d1 := (x1 - bx) ^ 2 + (y1 - by_) ^ 2) in *.
  set (d2 := (x2 - bx) ^ 2 + (y2 - by_) ^ 2) in *.
  assert (H1 : 0 <= d1).
  { unfold d1. pose proof (pow2_ge_0 (x1 - bx)).
    pose proof (pow2_ge_0 (y1 - by_)). lra. }
  assert (Hr : 0 <= r ^ 2) by apply pow2_ge_0.
  assert (Hmono : forall a b, 0 <= a -> a <= b ->
                    r ^ 2 / (b + Spec.eps) <= r ^ 2 / (a + Spec.eps)).
  { intros a b Ha Hab. unfold Rdiv. apply Rmult_le_compat_l; [exact Hr |].
    apply Rinv_le_contravar; unfold Spec.eps; lra. }
  assert (Hv : r ^ 2 / (d2 + Spec.eps) <= r ^ 2 / (d1 + Spec.eps))
    by (apply Hmono; lra).
  assert (Hmax : r ^ 2 / (d1 + Spec.eps) <= r ^ 2 / 1e-4).
  { replace (1e-4) with (0 + Spec.eps) by (unfold Spec.eps; lra).
    apply Hmono; lra. }
  split; [| split].
  - do 2 eexists. repeat split; [apply single_source_field .. | exact Hv | exact Hmax].
  - rewrite single_source_field. f_equal. f_equal. unfold Spec.eps. lra.
  - rewrite !is_inside_ok. intros H. injection H as H. f_equal.
    unfold Spec.inside in *. apply py_ge_true in H. apply py_ge_true.
    simpl in *. fold d1 d2 in H |- *. lra.
Qed.

Lemma single_source_falloff_witness :
  MetaballField.field_value (MetaballField.mk 1 [(0, 0, 1.5)]) 0 0
  = Ok (1.5 ^ 2 / 1e-4).
Proof.
  apply (single_source_falloff 1 0 0 1.5 1 0 2 0). lra.
Defined.

(** ** The grid scan at its edges *)

(** X5: a negative resolution makes both loops empty and the scan
    returns no points; a zero resolution raises [ZeroDivisionError]
    whatever the bounds and the sources. *)
Theorem scan_degenerate_resolution (f : MetaballField.t)
  (bounds : R * R * R * R) (resolution : Z) :
  (resolution <= 0)%Z ->
  MetaballField.get_boundary_points f resolution bounds
  = if (resolution =? 0)%Z then Raise ZeroDivisionError else Ok [].
Proof.
  intros Hres. destruct (Z.eqb_spec resolution 0) as [-> | Hne].
  - apply get_boundary_points_zero.
  - destruct bounds as [[[x_min x_max] y_min] y_max].
    rewrite get_boundary_points_ok by exact Hne.
    unfold Spec.boundary_cloud, range.
    replace (Z.to_nat resolution) with 0%nat by lia. reflexivity.
Qed.

Lemma scan_degenerate_resolution_witness :
  MetaballField.get_boundary_points
    (MetaballField.add_blob (MetaballField.init 1) 0 0 1.5) (-3)
    (-8, 8, -4.5, 4.5)
  = Ok [].
Proof.
  apply (scan_degenerate_resolution
           (MetaballField.add_blob (MetaballField.init 1) 0 0 1.5)
           (-8, 8, -4.5, 4.5) (-3)).
  lia.
Defined.

(** X6: the scan returns at most one point per cell: never more than
    [resolution * resolution] points. *)
Theorem scan_size_bound (f : MetaballField.t) (x_min x_max y_min y_max : R)
  (resolution : Z) :
  resolution <> 0%Z ->
  exists cloud,
    MetaballField.get_boundary_points f resolution (x_min, x_max, y_min, y_max)
    = Ok cloud
    /\ (Z.of_nat (length cloud) <= resolution * resolution)%Z.
Proof.
  intros Hres. eexists. split; [apply get_boundary_points_ok, Hres |].
  unfold Spec.boundary_cloud.
  pose proof (length_flat_map_le
    (fun i => flat_map (Spec.emit f x_min x_max y_min y_max resolution i)
                (range resolution))
    (Z.to_nat resolution) (range resolution)) as H.
  rewrite length_range in H.
  assert (Hin : forall i,
    (length (flat_map (Spec.emit f x_min x_max y_min y_max resolution i)
               (range resolution)) <= Z.to_nat resolution)%nat).
  { intros i.
    pose proof (length_flat_map_le
      (Spec.emit f x_min x_max y_min y_max resolution i) 1
      (range resolution)) as Hi.
    rewrite length_range in Hi. rewrite Nat.mul_1_l in Hi. apply Hi.
    intros j. unfold Spec.emit. destruct (Spec.straddles _ _ _ _ _ _ _ _);
      simpl; lia. }
  specialize (H Hin). nia.
Qed.

Lemma scan_size_bound_witness :
  exists cloud,
    MetaballField.get_boundary_points
      (MetaballField.add_blob (MetaballField.init 1) 0 0 1.5) 80
      (-8, 8, -4.5, 4.5)
    = Ok cloud
    /\ (Z.of_nat (length cloud) <= 80 * 80)%Z.
Proof.
  apply (scan_size_bound
           (MetaballField.add_blob (MetaballField.init 1) 0 0 1.5)
           (-8) 8 (-4.5) 4.5 80).
  discriminate.
Defined.

(** X7: for a positive resolution and a rectangle given with
    [x_min <= x_max] and [y_min <= y_max], every returned point lies in
    the rectangle. *)
Theorem scan_points_in_bounds (f : MetaballField.t)
  (x_min x_max y_min y_max : R) (resolution : Z) :
  (0 < resolution)%Z -> x_min <= x_max -> y_min <= y_max ->
  exists cloud,
    MetaballField.get_boundary_points f resolution (x_min, x_max, y_min, y_max)
    = Ok cloud
    /\ forall p, In p cloud ->
                 x_min <= fst p <= x_max /\ y_min <= snd p <= y_max.
Proof.
  intros Hres Hx Hy. eexists.
  split; [apply get_boundary_points_ok; lia |].
  intros p Hp. apply boundary_cloud_spec in Hp
    as (i & j & Hi & Hj & _ & ->).
  assert (Hn : 0 < IZR resolution) by (apply IZR_lt; lia).
  assert (Hcell : forall (lo hi : R) (k : Z),
    lo <= hi -> (0 <= k < resolution)%Z ->
    lo <= lo + IZR k * ((hi - lo) / IZR resolution)
          + (hi - lo) / IZR resolution / 2 <= hi).
  { intros lo hi k Hlh Hk.
    set (s := (hi - lo) / IZR resolution).
    assert (Hs : 0 <= s).
    { unfold s, Rdiv. apply Rmult_le_pos; [lra |].
      apply Rlt_le, Rinv_0_lt_compat, Hn. }
    assert (Hsn : s * IZR resolution = hi - lo) by (unfold s; field; lra).
    assert (Hk0 : 0 <= IZR k) by (apply IZR_le; lia).
    assert (Hk1 : IZR k + 1 <= IZR resolution).
    { rewrite <- plus_IZR. apply IZR_le. lia. }
    split; nra. }
  unfold Spec.center, Spec.cornerX, Spec.cornerY, Spec.stepX, Spec.stepY.
  cbn [fst snd]. split; apply Hcell; assumption.
Qed.

Lemma scan_points_in_bounds_witness :
  exists cloud,
    MetaballField.get_boundary_points
      (MetaballField.add_blob (MetaballField.init 1) 0 0 1.5) 80
      (-8, 8, -4.5, 4.5)
    = Ok cloud
    /\ forall p, In p cloud ->
                 -8 <= fst p <= 8 /\ -4.5 <= snd p <= 4.5.
Proof.
  apply (scan_points_in_bounds
           (MetaballField.add_blob (MetaballField.init 1) 0 0 1.5)
           (-8) 8 (-4.5) 4.5 80); [lia | lra | lra].
Defined.

(** X8: when no point can be told apart from another -- a threshold
    that is not positive, or no source at all under a positive
    threshold -- the scan returns no points for every non-zero
    resolution. *)
Theorem scan_uniform_field (f : MetaballField.t)
  (x_min x_max y_min y_max : R) (resolution : Z) :
  resolution <> 0%Z ->
  MetaballField.threshold f <= 0
  \/ (MetaballField.blobs f = [] /\ 0 < MetaballField.threshold f) ->
  (forall x y,
      MetaballField.is_inside f x y
      = Ok (if Rle_dec (MetaballField.threshold f) 0 then true else false))
  /\ MetaballField.get_boundary_points f resolution
       (x_min, x_max, y_min, y_max) = Ok [].
Proof.
  intros Hres Hcase.
  assert (Hall : forall x y,
    Spec.inside f x y
    = if Rle_dec (MetaballField.threshold f) 0 then true else false).
  { intros x y. destruct (Rle_dec (MetaballField.threshold f) 0) as [Hle | Hgt].
    - now apply inside_nonpositive_threshold.
    - destruct Hcase as [Hle | [Hb Hpos]]; [contradiction |].
      now apply inside_no_sources. }
  split.
  - intros x y. rewrite is_inside_ok. f_equal. apply Hall.
  - rewrite get_boundary_points_ok by exact Hres. f_equal.
    eapply boundary_cloud_uniform. exact Hall.
Qed.

Lemma scan_uniform_field_witness :
  MetaballField.get_boundary_points (MetaballField.init 1) 80
    (-8, 8, -4.5, 4.5) = Ok [].
Proof.
  apply (scan_uniform_field (MetaballField.init 1) (-8) 8 (-4.5) 4.5 80).
  - discriminate.
  - right. simpl. split; [reflexivity | lra].
Defined.

(** ** [generate_points] beyond its fallbacks *)

Section HullFacts.

Import MetaballMobject.

Lemma take_rows_ok (points_array : list (R * R)) (vertices : list nat) :
  Forall (fun v => (v < length points_array)%nat) vertices ->
  exists hull_points,
    take_rows points_array vertices = Ok hull_points
    /\ length hull_points = length vertices
    /\ forall k v, nth_error vertices k = Some v ->
                   exists p, nth_error points_array v = Some p
                             /\ nth_error hull_points k = Some p.
Proof.
  induction 1 as [| v vs Hv _ (hp & Hok & Hlen & Hnth)].
  - exists []. repeat split. intros [| k] v H; discriminate.
  - destruct (nth_error points_array v) as [p |] eqn:Hp;
      [| apply nth_error_None in Hp; lia].
    exists (p :: hp). cbn [take_rows]. rewrite Hp, Hok. cbn [bind].
    repeat split; [simpl; lia |].
    intros [| k] w Hw; simpl in Hw.
    + injection Hw as <-. exists p. now split.
    + apply Hnth, Hw.
Qed.

End HullFacts.

(** X9: with no boundary to find (threshold not positive, or no source
    under a positive threshold) and a non-zero resolution,
    [generate_points] stores the single-point placeholder and never
    consults the hull routine. *)
Theorem generate_points_no_boundary
  (ConvexHull : list (R * R) -> result (list nat))
  (smooth_path : list MetaballMobject.point3 -> result (list MetaballMobject.point3))
  (Circle_points : R -> list MetaballMobject.point3)
  (self : MetaballMobject.t) :
  MetaballMobject.resolution self <> 0%Z ->
  MetaballField.threshold (MetaballMobject.metaball_field self) <= 0
  \/ (MetaballField.blobs (MetaballMobject.metaball_field self) = []
      /\ 0 < MetaballField.threshold (MetaballMobject.metaball_field self)) ->
  MetaballMobject.generate_points ConvexHull smooth_path Circle_points self
  = Ok (MetaballMobject.set_points self [MetaballMobject.ORIGIN]).
Proof.
  intros Hres Hcase. unfold MetaballMobject.generate_points.
  rewrite get_boundary_points_ok by exact Hres.
  rewrite boundary_cloud_uniform
    with (b := if Rle_dec (MetaballField.threshold
                             (MetaballMobject.metaball_field self)) 0
               then true else false).
  - reflexivity.
  - intros x y.
    destruct (Rle_dec (MetaballField.threshold
                         (MetaballMobject.metaball_field self)) 0).
    + now apply inside_nonpositive_threshold.
    + destruct Hcase as [Hle | [Hb Hpos]]; [contradiction |].
      now apply inside_no_sources.
Qed.

Lemma generate_points_no_boundary_witness :
  MetaballMobject.generate_points
    (fun _ => Raise LibraryError) (fun pts => Ok pts) (fun _ => [])
    (MetaballMobject.mk (MetaballField.init 1) 80 [])
  = Ok (MetaballMobject.mk (MetaballField.init 1) 80 [MetaballMobject.ORIGIN]).
Proof.
  apply (generate_points_no_boundary
           (fun _ => Raise LibraryError) (fun pts => Ok pts) (fun _ => [])
           (MetaballMobject.mk (MetaballField.init 1) 80 [])).
  - discriminate.
  - right. simpl. split; [reflexivity | lra].
Defined.

(** X10: when the scan finds at least 3 points and the hull routine
    returns a non-empty list of valid row indices, the path handed to
    the smoothing routine lists the selected boundary points in hull
    order with [z = 0] and ends with a copy of its first point; the
    mobject gets the smoothed points, or the unit circle if smoothing
    raises. *)
Theorem generate_points_closed_path
  (ConvexHull : list (R * R) -> result (list nat))
  (smooth_path : list MetaballMobject.point3 -> result (list MetaballMobject.point3))
  (Circle_points : R -> list MetaballMobject.point3)
  (self : MetaballMobject.t) (boundary : list (R * R)) (vertices : list nat) :
  MetaballField.get_boundary_points (MetaballMobject.metaball_field self)
    (MetaballMobject.resolution self) (-8, 8, -4.5, 4.5) = Ok boundary ->
  (3 <= length boundary)%nat ->
  ConvexHull boundary = Ok vertices ->
  vertices <> [] ->
  Forall (fun v => (v < length boundary)%nat) vertices ->
  exists anchors : list MetaballMobject.point3,
    length anchors = S (length vertices)
    /\ nth_error anchors (length vertices) = nth_error anchors 0
    /\ (forall k v, nth_error vertices k = Some v ->
          exists p, nth_error boundary v = Some p
                    /\ nth_error anchors k = Some (fst p, snd p, 0))
    /\ MetaballMobject.generate_points ConvexHull smooth_path Circle_points self
       = match smooth_path anchors with
         | Ok pts => Ok (MetaballMobject.set_points self pts)
         | Raise _ =>
             Ok (MetaballMobject.set_points self (Circle_points 1))
         end.
Proof.
  intros Hscan Hlen Hhull Hne Hrange.
  destruct (take_rows_ok boundary vertices Hrange)
    as (hp & Hrows & Hhp & Hnth).
  set (to3d := fun p : R * R => (fst p, snd p, 0)).
  exists (map to3d hp ++ firstn 1 (map to3d hp)).
  destruct hp as [| h hp]; [destruct vertices; [contradiction | discriminate] |].
  repeat split.
  - rewrite length_app, length_map. simpl in *. lia.
  - rewrite nth_error_app2 by (rewrite length_map; lia).
    rewrite length_map, Hhp, Nat.sub_diag. reflexivity.
  - intros k v Hk. destruct (Hnth k v Hk) as (p & Hp & Hpk).
    exists p. split; [exact Hp |].
    rewrite nth_error_app1.
    + now rewrite nth_error_map, Hpk.
    + rewrite length_map. apply nth_error_Some. now rewrite Hpk.
  - unfold MetaballMobject.generate_points. rewrite Hscan. cbn [bind].
    destruct (Nat.ltb_spec (length boundary) 3) as [Hlt | _]; [lia |].
    rewrite Hhull. cbn [bind]. rewrite Hrows. cbn [bind]. fold to3d.
    destruct (smooth_path _); reflexivity.
Qed.

(** A concrete scan: the animation's evaluator (one source of radius
    1.5 at the origin, threshold 1) at resolution 2 over the viewport.
    Only the middle grid corner is inside, so each of the four cells
    straddles the boundary. *)
Section CoarseScan.

Lemma coarse_inside (x y : R) :
  Spec.inside Scene.hero_field x y
  = py_ge (1.5 ^ 2 / (x ^ 2 + y ^ 2 + Spec.eps)) 1.0.
Proof.
  unfold Spec.inside, Scene.hero_field. simpl. f_equal.
  replace (x - 0) with x by lra. replace (y - 0) with y by lra. lra.
Qed.

Lemma coarse_far (x y : R) :
  2.25 < x ^ 2 + y ^ 2 -> Spec.inside Scene.hero_field x y = false.
Proof.
  intros H. rewrite coarse_inside. unfold py_ge.
  destruct (Rge_dec _ 1.0) as [Hge | _]; [| reflexivity].
  exfalso. apply Rge_le in Hge.
  apply (Rmult_le_compat_r (x ^ 2 + y ^ 2 + Spec.eps)) in Hge;
    [| unfold Spec.eps; lra].
  unfold Rdiv in Hge. rewrite Rmult_assoc, Rinv_l in Hge;
    unfold Spec.eps in *; lra.
Qed.

Lemma coarse_centre : Spec.inside Scene.hero_field 0 0 = true.
Proof.
  rewrite coarse_inside. apply py_ge_true. unfold Spec.eps. lra.
Qed.

Ltac on_edge :=
  first [left; lra | right; left; lra | do 2 right; left; lra | do 3 right; lra].

Lemma coarse_straddles (i j : Z) :
  (0 <= i < 2)%Z -> (0 <= j < 2)%Z ->
  Spec.straddles Scene.hero_field (-8) 8 (-4.5) 4.5 2 i j = true.
Proof.
  intros Hi Hj.
  assert (Hfar : forall x y, (x = -8 \/ x = 8 \/ y = -4.5 \/ y = 4.5) ->
                             Spec.inside Scene.hero_field x y = false).
  { intros x y Hxy. apply coarse_far.
    pose proof (pow2_ge_0 x). pose proof (pow2_ge_0 y).
    destruct Hxy as [-> | [-> | [-> | ->]]]; lra. }
  assert (Hsx : Spec.stepX (-8) 8 2 = 8) by (unfold Spec.stepX; lra).
  assert (Hsy : Spec.stepY (-4.5) 4.5 2 = 4.5) by (unfold Spec.stepY; lra).
  unfold Spec.straddles, Spec.cornerX, Spec.cornerY. rewrite Hsx, Hsy.
  assert (Ei : i = 0%Z \/ i = 1%Z) by lia.
  assert (Ej : j = 0%Z \/ j = 1%Z) by lia.
  destruct Ei as [-> | ->], Ej as [-> | ->].
  - replace (-8 + 0 * 8 + 8) with 0 by lra.
    replace (-4.5 + 0 * 4.5 + 4.5) with 0 by lra.
    rewrite coarse_centre, !Hfar; [reflexivity | on_edge ..].
  - replace (-8 + 0 * 8 + 8) with 0 by lra.
    replace (-4.5 + 1 * 4.5) with 0 by lra.
    rewrite coarse_centre, !Hfar; [reflexivity | on_edge ..].
  - replace (-8 + 1 * 8) with 0 by lra.
    replace (-4.5 + 0 * 4.5 + 4.5) with 0 by lra.
    rewrite coarse_centre, !Hfar; [reflexivity | on_edge ..].
  - replace (-8 + 1 * 8) with 0 by lra.
    replace (-4.5 + 1 * 4.5) with 0 by lra.
    rewrite coarse_centre, !Hfar; [reflexivity | on_edge ..].
Qed.

Lemma coarse_cloud :
  Spec.boundary_cloud Scene.hero_field (-8) 8 (-4.5) 4.5 2
  = [Spec.center (-8) 8 (-4.5) 4.5 2 0 0; Spec.center (-8) 8 (-4.5) 4.5 2 0 1;
     Spec.center (-8) 8 (-4.5) 4.5 2 1 0; Spec.center (-8) 8 (-4.5) 4.5 2 1 1].
Proof.
  unfold Spec.boundary_cloud, Spec.emit.
  change (range 2) with [0%Z; 1%Z]. cbn [flat_map app].
  rewrite !coarse_straddles by lia. reflexivity.
Qed.

Lemma coarse_scan :
  MetaballField.get_boundary_points Scene.hero_field 2 (-8, 8, -4.5, 4.5)
  = Ok (Spec.boundary_cloud Scene.hero_field (-8) 8 (-4.5) 4.5 2).
Proof. apply get_boundary_points_ok. discriminate. Qed.

End CoarseScan.

Lemma generate_points_closed_path_witness :
  exists anchors : list MetaballMobject.point3,
    length anchors = 4%nat
    /\ nth_error anchors 3 = nth_error anchors 0
    /\ MetaballMobject.generate_points
         (fun _ => Ok [0; 2; 3]%nat) (fun pts => Ok pts) (fun _ => [])
         (MetaballMobject.mk Scene.hero_field 2 [])
       = Ok (MetaballMobject.mk Scene.hero_field 2
               anchors).
Proof.
  destruct (generate_points_closed_path
              (fun _ => Ok [0; 2; 3]%nat) (fun pts => Ok pts) (fun _ => [])
              (MetaballMobject.mk Scene.hero_field 2 [])
              _ [0; 2; 3]%nat coarse_scan)
    as (anchors & H1 & H2 & _ & H4).
  - rewrite coarse_cloud. simpl. lia.
  - reflexivity.
  - discriminate.
  - rewrite coarse_cloud. repeat constructor.
  - exists anchors. repeat split; assumption.
Defined.

(** ** The spring beyond one scenario *)

Section SettleFacts.

Import BlobPhysics.

Lemma hold_S (s : t) (target_x target_y dt : R) (n : nat) :
  Settle.hold s target_x target_y dt (S n)
  = update (Settle.hold s target_x target_y dt n) target_x target_y dt.
Proof. reflexivity. Qed.

Lemma tuned_hold (s : t) (target_x target_y dt : R) (n : nat) :
  tuned s -> tuned (Settle.hold s target_x target_y dt n).
Proof.
  intros Hs. induction n as [| n IH]; [exact Hs |].
  rewrite hold_S. now apply tuned_update.
Qed.

(** One tick multiplies the quadratic form by the damping. *)
Lemma energy_step (v e : R) :
  let v' := (v + e * 0.08) * 0.85 in
  Settle.energy v' (e - v') = 0.85 * Settle.energy v e.
Proof.
  cbv zeta. unfold Settle.energy. unfold Q2R. simpl. field.
Qed.

(** The quadratic form dominates both the offset and the velocity. *)
Lemma energy_dominates (v e : R) :
  0.066 * e ^ 2 <= Settle.energy v e /\ 0.8 * v ^ 2 <= Settle.energy v e.
Proof.
  unfold Settle.energy. split.
  - pose proof (pow2_ge_0 (0.85 * v - 0.041 * e)). nra.
  - pose proof (pow2_ge_0 (0.068 * e - 0.041 * v)). nra.
Qed.

Lemma update_energy_step (s : t) (target_x target_y dt : R) :
  tuned s ->
  Settle.energy_x (update s target_x target_y dt) target_x
  = 0.85 * Settle.energy_x s target_x
  /\ Settle.energy_y (update s target_x target_y dt) target_y
     = 0.85 * Settle.energy_y s target_y.
Proof.
  intros (Hk & Hd & _).
  unfold Settle.energy_x, Settle.energy_y, update. cbn [x y vx vy].
  rewrite Hk, Hd. split.
  - rewrite <- (energy_step (vx s) (target_x - x s)).
    cbv zeta. f_equal. lra.
  - rewrite <- (energy_step (vy s) (target_y - y s)).
    cbv zeta. f_equal. lra.
Qed.

End SettleFacts.

(** X11: on a body with the constructor's constants and a non-negative
    base radius, every update leaves the radius between the base radius
    and 1.15 times the base radius; it is exactly the base radius when
    the new speed is 0 and exactly 1.15 times it once the new speed
    reaches 0.25. *)
Theorem radius_range (s : BlobPhysics.t) (target_x target_y dt : R) :
  BlobPhysics.tuned s ->
  0 <= BlobPhysics.base_radius s ->
  let s' := BlobPhysics.update s target_x target_y dt in
  BlobPhysics.base_radius s <= BlobPhysics.radius s'
                            <= 1.15 * BlobPhysics.base_radius s
  /\ (BlobPhysics.speed s' = 0 ->
      BlobPhysics.radius s' = BlobPhysics.base_radius s)
  /\ (0.25 <= BlobPhysics.speed s' ->
      BlobPhysics.radius s' = 1.15 * BlobPhysics.base_radius s).
Proof.
  intros (_ & _ & Hm) Hb. cbv zeta. rewrite radius_update, Hm.
  set (v := BlobPhysics.speed (BlobPhysics.update s target_x target_y dt)).
  assert (Hv : 0 <= v) by apply speed_nonneg.
  assert (Hlo : 0 <= Rmin (v / 0.5) (1.5 - 1)) by (apply Rmin_glb; lra).
  assert (Hhi : Rmin (v / 0.5) (1.5 - 1) <= 0.5)
    by (etransitivity; [apply Rmin_r | lra]).
  repeat split; try nra.
  - intros H0. rewrite H0, Rmin_left by lra. lra.
  - intros Hfast. rewrite Rmin_right by lra. lra.
Qed.

Lemma radius_range_witness :
  let s' := BlobPhysics.update (BlobPhysics.init 0 0 1.5) 3 0 (1 / 60) in
  BlobPhysics.base_radius (BlobPhysics.init 0 0 1.5)
  <= BlobPhysics.radius s'
  <= 1.15 * BlobPhysics.base_radius (BlobPhysics.init 0 0 1.5).
Proof.
  apply (radius_range (BlobPhysics.init 0 0 1.5) 3 0 (1 / 60)).
  - repeat split.
  - simpl. lra.
Defined.

(** X12: a body that sits on its target with zero velocity stays
    there: an update toward its own position changes nothing except
    that it resets the radius to the base radius, for any [dt]; and it
    keeps doing so for any number of further updates. *)
Theorem rest_is_fixed (s : BlobPhysics.t) (dt : R) (n : nat) :
  BlobPhysics.vx s = 0 -> BlobPhysics.vy s = 0 ->
  1 <= BlobPhysics.max_stretch s ->
  let rest :=
    BlobPhysics.mk (BlobPhysics.x s) (BlobPhysics.y s) 0 0
      (BlobPhysics.base_radius s) (BlobPhysics.base_radius s)
      (BlobPhysics.stiffness s) (BlobPhysics.damping s)
      (BlobPhysics.max_stretch s) in
  BlobPhysics.update s (BlobPhysics.x s) (BlobPhysics.y s) dt = rest
  /\ Settle.hold s (BlobPhysics.x s) (BlobPhysics.y s) dt (S n) = rest.
Proof.
  intros Hvx Hvy Hm. cbv zeta.
  assert (Hstep : forall x0 y0 b r k d m,
    1 <= m ->
    BlobPhysics.update (BlobPhysics.mk x0 y0 0 0 b r k d m) x0 y0 dt
    = BlobPhysics.mk x0 y0 0 0 b b k d m).
  { intros x0 y0 b r k d m Hm'. unfold BlobPhysics.update.
    cbn [BlobPhysics.x BlobPhysics.y BlobPhysics.vx BlobPhysics.vy
         BlobPhysics.base_radius BlobPhysics.stiffness BlobPhysics.damping
         BlobPhysics.max_stretch].
    replace ((0 + (x0 - x0) * k) * d) with 0 by ring.
    replace ((0 + (y0 - y0) * k) * d) with 0 by ring.
    replace (0 ^ 2 + 0 ^ 2) with 0 by ring.
    rewrite sqrt_0, py_min_Rmin, Rmin_left by lra.
    f_equal; lra. }
  destruct s as [x0 y0 vx0 vy0 b r k d m]. simpl in *. subst vx0 vy0.
  split; [now apply Hstep |].
  induction n as [| n IH].
  - unfold Settle.hold. simpl. now apply Hstep.
  - rewrite hold_S, IH. now apply Hstep.
Qed.

Lemma rest_is_fixed_witness :
  BlobPhysics.update (BlobPhysics.init 3 0 1.5) 3 0 (1 / 60)
  = BlobPhysics.init 3 0 1.5.
Proof.
  apply (rest_is_fixed (BlobPhysics.init 3 0 1.5) (1 / 60) 0);
    simpl; lra.
Defined.

(** X13: on a body with the constructor's constants, each update
    toward a target multiplies the quadratic form
    [0.85 v² - 0.082 v e + 0.068 e²] of each axis (velocity [v], offset
    from the target [e]) by exactly 0.85. *)
Theorem update_contracts_energy (s : BlobPhysics.t) (target_x target_y dt : R) :
  BlobPhysics.tuned s ->
  let s' := BlobPhysics.update s target_x target_y dt in
  Settle.energy_x s' target_x = 0.85 * Settle.energy_x s target_x
  /\ Settle.energy_y s' target_y = 0.85 * Settle.energy_y s target_y.
Proof.
  intros Hs. cbv zeta. now apply update_energy_step.
Qed.

Lemma update_contracts_energy_witness :
  Settle.energy_x (BlobPhysics.update (BlobPhysics.init 0 0 1.5) 3 0 (1 / 60)) 3
  = 0.85 * Settle.energy_x (BlobPhysics.init 0 0 1.5) 3.
Proof.
  apply (update_contracts_energy (BlobPhysics.init 0 0 1.5) 3 0 (1 / 60)).
  repeat split.
Defined.

(** X14: held on a fixed target, a body with the constructor's
    constants converges geometrically: after [n] updates the squared
    offset from the target and the squared velocity of each axis are at
    most [0.85^n] times a constant fixed by the starting state. *)
Theorem hold_converges (s : BlobPhysics.t) (target_x target_y dt : R) (n : nat) :
  BlobPhysics.tuned s ->
  let s' := Settle.hold s target_x target_y dt n in
  0.066 * (target_x - BlobPhysics.x s') ^ 2
    <= 0.85 ^ n * Settle.energy_x s target_x
  /\ 0.8 * BlobPhysics.vx s' ^ 2 <= 0.85 ^ n * Settle.energy_x s target_x
  /\ 0.066 * (target_y - BlobPhysics.y s') ^ 2
    <= 0.85 ^ n * Settle.energy_y s target_y
  /\ 0.8 * BlobPhysics.vy s' ^ 2 <= 0.85 ^ n * Settle.energy_y s target_y.
Proof.
  intros Hs. cbv zeta.
  assert (He : Settle.energy_x (Settle.hold s target_x target_y dt n) target_x
               = 0.85 ^ n * Settle.energy_x s target_x
               /\ Settle.energy_y (Settle.hold s target_x target_y dt n) target_y
                  = 0.85 ^ n * Settle.energy_y s target_y).
  { induction n as [| n [IHx IHy]].
    - unfold Settle.hold. simpl. split; lra.
    - rewrite hold_S.
      destruct (update_energy_step (Settle.hold s target_x target_y dt n)
                  target_x target_y dt) as [Hx Hy];
        [now apply tuned_hold |].
      rewrite Hx, Hy, IHx, IHy. simpl. split; lra. }
  destruct He as [<- <-]. unfold Settle.energy_x, Settle.energy_y.
  pose proof (energy_dominates
                (BlobPhysics.vx (Settle.hold s target_x target_y dt n))
                (target_x - BlobPhysics.x (Settle.hold s target_x target_y dt n))).
  pose proof (energy_dominates
                (BlobPhysics.vy (Settle.hold s target_x target_y dt n))
                (target_y - BlobPhysics.y (Settle.hold s target_x target_y dt n))).
  tauto.
Qed.

Lemma hold_converges_witness :
  0.066 * (3 - BlobPhysics.x (Settle.hold (BlobPhysics.init 0 0 1.5) 3 0 (1 / 60) 60)) ^ 2
  <= 0.85 ^ 60 * Settle.energy_x (BlobPhysics.init 0 0 1.5) 3.
Proof.
  apply (hold_converges (BlobPhysics.init 0 0 1.5) 3 0 (1 / 60) 60).
  repeat split.
Defined.

(** ** The shape drawn for the blob *)

Section ShapeFacts.

Lemma py_gt_true (a b : R) : py_gt a b = true <-> a > b.
Proof.
  unfold py_gt. destruct (Rgt_dec a b); split; intros; try easy.
Qed.

(** The stretched ellipse: bounds that follow from a lower bound on the
    speed. *)
Lemma ellipse_dims (speed lo : R) :
  0 <= lo -> lo < 0.25 -> lo < speed ->
  let stretch := 1 + py_min (speed * 2) 0.5 in
  exists h,
    py_div 1.5 stretch = Ok h
    /\ (1.5 * stretch * 2) * (h * 2) = 9
    /\ 3 * (1 + 2 * lo) < 1.5 * stretch * 2 <= 4.5
    /\ 2 <= h * 2 < 3 / (1 + 2 * lo).
Proof.
  intros Hlo0 Hlo Hs. cbv zeta. rewrite py_min_Rmin.
  set (m := Rmin (speed * 2) 0.5).
  assert (Hm : 2 * lo < m <= 0.5).
  { unfold m. split; [apply Rmin_glb_lt; lra | apply Rmin_r]. }
  rewrite py_div_nonzero by lra. eexists. split; [reflexivity |].
  assert (Hh : 1.5 / (1 + m) * 2 = 3 / (1 + m))
    by (unfold Q2R; cbn [Qnum Qden]; field; lra).
  rewrite Hh. split.
  { replace (1.5 * (1 + m) * 2) with (3 * (1 + m)) by lra.
    unfold Rdiv. rewrite Rmult_assoc, (Rmult_comm (1 + m)), Rmult_assoc,
      Rinv_l by lra. lra. }
  split; [lra |].
  split.
  - apply Rmult_le_reg_r with (1 + m); [lra |].
    unfold Rdiv. rewrite Rmult_assoc, Rinv_l by lra. lra.
  - unfold Rdiv. apply Rmult_lt_compat_l; [lra |].
    apply Rinv_lt_contravar; nra.
Qed.

End ShapeFacts.

(** X15: the shape [phase_interactive] draws never fails to build.
    Above speed 0.1 it is an ellipse at the body's position whose
    width times height is always 9 (the area of the resting circle of
    radius 1.5), with width in (3.6, 4.5] and height in [2, 2.5); at or
    below 0.1 it is a circle at the body's position whose radius stays
    within 5% of 1.5. *)
Theorem interactive_shape_dims (arctan2 : R -> R -> R)
  (physics : BlobPhysics.t) (time : R) :
  let position :=
    (BlobPhysics.x physics, BlobPhysics.y physics, 0) in
  exists sh,
    Scene.interactive_shape arctan2 physics time = Ok sh
    /\ match sh with
       | Scene.Ellipse width height centre angle =>
           BlobPhysics.speed physics > 0.1
           /\ width * height = 9
           /\ 3.6 < width <= 4.5 /\ 2 <= height < 2.5
           /\ centre = position
           /\ angle = arctan2 (BlobPhysics.vy physics) (BlobPhysics.vx physics)
       | Scene.Circle radius centre =>
           BlobPhysics.speed physics <= 0.1
           /\ 1.425 <= radius <= 1.575
           /\ centre = position
       end.
Proof.
  cbv zeta. unfold Scene.interactive_shape.
  fold (BlobPhysics.speed physics).
  destruct (py_gt (BlobPhysics.speed physics) 0.1) eqn:Hgt.
  - apply py_gt_true in Hgt.
    destruct (ellipse_dims (BlobPhysics.speed physics) 0.1)
      as (h & Hh & Harea & Hw & Hht); try lra.
    rewrite Hh. cbn [bind]. eexists. split; [reflexivity |].
    repeat split; lra.
  - eexists. split; [reflexivity |].
    assert (Hle : BlobPhysics.speed physics <= 0.1).
    { unfold py_gt in Hgt.
      destruct (Rgt_dec (BlobPhysics.speed physics) 0.1); [discriminate | lra]. }
    pose proof (SIN_bound (time * 3)). repeat split; try lra.
Qed.

(** X16: the shape [TestMetaball] draws never fails to build.  Above
    speed 0.05 it is an ellipse whose width times height is 9, with
    width in (3.3, 4.5] and height at least 2; otherwise it is the
    circle of radius 1.5; either way it sits at the body's position. *)
Theorem test_shape_dims (arctan2 : R -> R -> R) (physics : BlobPhysics.t) :
  let position :=
    (BlobPhysics.x physics, BlobPhysics.y physics, 0) in
  exists sh,
    Scene.test_shape arctan2 physics = Ok sh
    /\ match sh with
       | Scene.Ellipse width height centre angle =>
           BlobPhysics.speed physics > 0.05
           /\ width * height = 9
           /\ 3.3 < width <= 4.5 /\ 2 <= height
           /\ centre = position
       | Scene.Circle radius centre =>
           BlobPhysics.speed physics <= 0.05
           /\ radius = 1.5
           /\ centre = position
       end.
Proof.
  cbv zeta. unfold Scene.test_shape.
  fold (BlobPhysics.speed physics).
  destruct (py_gt (BlobPhysics.speed physics) 0.05) eqn:Hgt.
  - apply py_gt_true in Hgt.
    destruct (ellipse_dims (BlobPhysics.speed physics) 0.05)
      as (h & Hh & Harea & Hw & Hht); try lra.
    rewrite Hh. cbn [bind]. eexists. split; [reflexivity |].
    repeat split; lra.
  - eexists. split; [reflexivity |].
    unfold py_gt in Hgt.
    destruct (Rgt_dec (BlobPhysics.speed physics) 0.05); [discriminate |].
    repeat split; lra.
Qed.

(** ** Typewriter timing *)

Section TimingFacts.

Lemma fold_left_Rplus_pairs {A : Type} (a b : R) (l : list A) :
  forall acc,
    fold_left Rplus (flat_map (fun _ => [a; b]) l) acc
    = acc + INR (length l) * (a + b).
Proof.
  induction l as [| x l IH]; intros acc.
  - simpl. lra.
  - cbn [flat_map app fold_left]. rewrite IH.
    change (length (x :: l)) with (S (length l)). rewrite S_INR. lra.
Qed.

End TimingFacts.

(** X17: for a text of [letter_count > 0] letters [phase_entry] plays
    two animations per letter, all of positive length, whose
    [run_time]s add up to the reveal duration 2.0 whatever the number
    of letters; for a text without letters it raises
    [ZeroDivisionError]. *)
Theorem phase_entry_timing (letter_count : Z) :
  (0 <= letter_count)%Z ->
  match Scene.phase_entry_run_times letter_count with
  | Raise e => letter_count = 0%Z /\ e = ZeroDivisionError
  | Ok times =>
      (0 < letter_count)%Z
      /\ Z.of_nat (length times) = (2 * letter_count)%Z
      /\ Forall (fun t => 0 < t) times
      /\ py_sum times = 2.0
  end.
Proof.
  intros Hn. unfold Scene.phase_entry_run_times.
  destruct (Z.eq_dec letter_count 0) as [-> | Hne].
  - rewrite py_div_zero. now split.
  - assert (Hpos : 0 < IZR letter_count) by (apply IZR_lt; lia).
    rewrite py_div_nonzero by lra. cbn [bind].
    set (d := 2.0 / IZR letter_count).
    assert (Hd : 0 < d) by (unfold d; apply Rdiv_lt_0_compat; lra).
    rewrite for_each_append with (emit := fun _ => [d * 0.6; d * 0.4])
      by reflexivity.
    cbn [app]. repeat split.
    + lia.
    + pose proof (length_flat_map_le (fun _ : Z => [d * 0.6; d * 0.4]) 2
                    (range letter_count)) as Hle.
      assert (Hlen : forall l : list Z,
        length (flat_map (fun _ => [d * 0.6; d * 0.4]) l) = (2 * length l)%nat).
      { induction l as [| z l IH]; simpl; [reflexivity | rewrite IH; lia]. }
      rewrite Hlen, length_range. lia.
    + apply Forall_forall. intros t Ht. apply in_flat_map in Ht as (_ & _ & Ht).
      destruct Ht as [<- | [<- | []]]; nra.
    + unfold py_sum. rewrite fold_left_Rplus_pairs, length_range.
      rewrite INR_IZR_INZ, Z2Nat.id by lia.
      unfold d, Q2R. cbn [Qnum Qden]. field. lra.
Qed.

Lemma phase_entry_timing_witness :
  exists times,
    Scene.phase_entry_run_times 10 = Ok times /\ py_sum times = 2.0.
Proof.
  pose proof (phase_entry_timing 10) as H.
  destruct (Scene.phase_entry_run_times 10) as [times | e].
  - exists times. split; [reflexivity |]. apply H. lia.
  - destruct H as [H _]; [lia | discriminate].
Defined.

(** ** Video frames *)

Section VideoFacts.

Import VideoTexture.

Variable frame : Type.
Variable black : frame.
Variable cvtColor : frame -> frame.



Lemma py_mod_nonzero (a b : Z) : b <> 0%Z -> py_mod a b = Ok (a mod b)%Z.
Proof.
  intros H. unfold py_mod. destruct (Z.eqb_spec b 0); [contradiction | reflexivity].
Qed.

Lemma py_index_ok {A : Type} (l : list A) (i : Z) :
  (0 <= i < Z.of_nat (length l))%Z ->
  exists a, py_index l i = Ok a /\ In a l.
Proof.
  intros Hi. unfold py_index.
  destruct (Z.ltb_spec i 0) as [? | _]; [lia |].
  destruct (Z.ltb_spec i 0) as [? | _]; [lia |].
  destruct (nth_error l (Z.to_nat i)) as [a |] eqn:Ha.
  - exists a. split; [reflexivity |]. eapply nth_error_In, Ha.
  - apply nth_error_None in Ha. lia.
Qed.

(** The frames the read loop keeps out of [stream], when the first of
    them has index [a]. *)
Lemma read_loop (frame_skip : Z) (stream : list frame) :
  frame_skip <> 0%Z ->
  forall (a : nat) (acc : list frame),
    for_each stream (read_step cvtColor frame_skip) (acc, Z.of_nat a)
    = Ok (acc ++ map (fun p => cvtColor (snd p))
                   (filter (fun p => (fst p mod frame_skip =? 0)%Z)
                      (combine (map Z.of_nat (seq a (length stream))) stream)),
          Z.of_nat (a + length stream)).
Proof.
  intros Hskip. induction stream as [| fr stream IH]; intros a acc.
  - simpl. now rewrite app_nil_r, Nat.add_0_r.
  - cbn [for_each read_step]. rewrite py_mod_nonzero by exact Hskip.
    cbn [bind]. replace (Z.of_nat a + 1)%Z with (Z.of_nat (S a)) by lia.
    rewrite IH. cbn [length seq map combine filter fst snd].
    replace (S a + length stream)%nat with (a + S (length stream))%nat by lia.
    destruct (Z.of_nat a mod frame_skip =? 0)%Z.
    + cbn [map snd]. now rewrite <- app_assoc.
    + reflexivity.
Qed.

Lemma combine_indices_snd (stream : list frame) (a : nat) :
  map snd (combine (map Z.of_nat (seq a (length stream))) stream) = stream.
Proof.
  revert a. induction stream as [| fr stream IH]; intros a; simpl;
    [reflexivity | now rewrite IH].
Qed.

Lemma in_combine_indices (stream : list frame) (a : nat) (p : Z * frame) :
  In p (combine (map Z.of_nat (seq a (length stream))) stream) ->
  In (snd p) stream.
Proof.
  destruct p as [i fr]. apply in_combine_r.
Qed.

Lemma get_frame_cases (self : t frame) (time : R) :
  frame_count self = Z.of_nat (length (frames self)) ->
  exists fr,
    get_frame black self time = Ok fr
    /\ (frames self = [] -> fr = black)
    /\ (frames self <> [] -> In fr (frames self)).
Proof.
  intros Hc. unfold get_frame.
  destruct (Z.eqb_spec (frame_count self) 0) as [H0 | Hne].
  - exists black. repeat split.
    intros Hnil. destruct (frames self); [contradiction |].
    simpl in Hc. lia.
  - rewrite py_mod_nonzero by exact Hne. cbn [bind].
    destruct (py_index_ok (frames self)
                (py_int (time * IZR (target_fps self)) mod frame_count self))
      as (fr & Hfr & Hin).
    { rewrite <- Hc. apply Z.mod_pos_bound. lia. }
    exists fr. repeat split; [exact Hfr | | now intros _].
    intros Hnil. rewrite Hnil in Hc. simpl in Hc. contradiction.
Qed.

End VideoFacts.

(** X18: on a texture whose [frame_count] is the length of [frames]
    (as [_load_video] leaves it), [get_frame] never fails, for any time
    (negative included) and any [target_fps]: without frames it returns
    the black frame, otherwise one of the stored frames. *)
Theorem get_frame_in_range (frame : Type) (black : frame)
  (self : VideoTexture.t frame) (time : R) :
  VideoTexture.frame_count self
  = Z.of_nat (length (VideoTexture.frames self)) ->
  exists fr,
    VideoTexture.get_frame black self time = Ok fr
    /\ (VideoTexture.frames self = [] -> fr = black)
    /\ (VideoTexture.frames self <> [] -> In fr (VideoTexture.frames self)).
Proof.
  intros Hc. now apply get_frame_cases.
Qed.

Lemma get_frame_in_range_witness :
  exists fr,
    VideoTexture.get_frame 0%nat (VideoTexture.mk 30 [7; 8; 9]%nat 3 0) (-0.05)
    = Ok fr
    /\ In fr [7; 8; 9]%nat.
Proof.
  destruct (get_frame_in_range nat 0%nat
              (VideoTexture.mk 30 [7; 8; 9]%nat 3 0) (-0.05))
    as (fr & H1 & _ & H3).
  - reflexivity.
  - exists fr. split; [exact H1 | apply H3; discriminate].
Defined.



(** X20: [_load_video] raises [ZeroDivisionError] for a zero
    [target_fps]; otherwise it appends to [frames], in order, the
    colour-converted frames whose index in the capture is a multiple of
    [frame_skip = max(1, int(video_fps / target_fps))], and sets
    [frame_count] to the new length of [frames]. *)
Theorem load_video_subsamples (frame : Type) (cvtColor : frame -> frame)
  (self : VideoTexture.t frame) (video_fps : R) (stream : list frame) :
  let frame_skip :=
    Z.max 1 (py_int (video_fps / IZR (VideoTexture.target_fps self))) in
  let kept :=
    map (fun p => cvtColor (snd p))
      (filter (fun p => (fst p mod frame_skip =? 0)%Z)
         (combine (range (Z.of_nat (length stream))) stream)) in
  VideoTexture._load_video cvtColor self video_fps stream
  = if (VideoTexture.target_fps self =? 0)%Z
    then Raise ZeroDivisionError
    else Ok (VideoTexture.mk (VideoTexture.target_fps self)
               (VideoTexture.frames self ++ kept)
               (Z.of_nat (length (VideoTexture.frames self ++ kept)))
               (VideoTexture.current_frame_idx self)).
Proof.
  cbv zeta. unfold VideoTexture._load_video.
  destruct (Z.eqb_spec (VideoTexture.target_fps self) 0) as [-> | Hne].
  - now rewrite py_div_zero.
  - rewrite py_div_nonzero by (now apply not_0_IZR). cbn [bind].
    rewrite (read_loop frame cvtColor _ stream) with (a := 0%nat) by lia.
    cbn [bind fst]. unfold range. rewrite Nat2Z.id. reflexivity.
Qed.

(** X21: when the capture's frame rate is less than twice a non-zero
    [target_fps], loading into a fresh texture drops nothing: the
    frames are the colour-converted capture frames, one for one and in
    order. *)
Theorem load_video_keeps_all (frame : Type) (cvtColor : frame -> frame)
  (target_fps : Z) (video_fps : R) (stream : list frame) :
  target_fps <> 0%Z ->
  video_fps / IZR target_fps < 2 ->
  VideoTexture._load_video cvtColor (VideoTexture.fresh target_fps)
    video_fps stream
  = Ok (VideoTexture.mk target_fps (map cvtColor stream)
          (Z.of_nat (length stream)) 0).
Proof.
  intros Hne Hq. unfold VideoTexture._load_video, VideoTexture.fresh.
  cbn [VideoTexture.target_fps VideoTexture.frames
       VideoTexture.current_frame_idx].
  rewrite py_div_nonzero by (now apply not_0_IZR). cbn [bind].
  assert (Hskip : Z.max 1 (py_int (video_fps / IZR target_fps)) = 1%Z).
  { apply Z.max_l. unfold py_int.
    destruct (Rle_dec 0 (video_fps / IZR target_fps)) as [Hpos | Hneg].
    - destruct (base_Int_part (video_fps / IZR target_fps)) as [Hlo _].
      assert (H : IZR (Int_part (video_fps / IZR target_fps)) < IZR 2) by lra.
      apply lt_IZR in H. lia.
    - destruct (base_Int_part (- (video_fps / IZR target_fps))) as [_ Hhi].
      assert (H : IZR (-1) < IZR (Int_part (- (video_fps / IZR target_fps)))) by lra.
      apply lt_IZR in H. lia. }
  rewrite Hskip, (read_loop frame cvtColor 1 stream) with (a := 0%nat) by lia.
  cbn [bind fst app].
  rewrite (proj2 (filter_ext_in_iff _ (fun _ => true) _)).
  - assert (Hall : forall l : list (Z * frame), filter (fun _ => true) l = l).
    { induction l as [| p l IH]; simpl; [reflexivity | now rewrite IH]. }
    rewrite Hall, <- (map_map snd cvtColor), combine_indices_snd, length_map.
    reflexivity.
  - intros p _. now rewrite Z.mod_1_r.
Qed.

Lemma load_video_keeps_all_witness :
  VideoTexture._load_video S (VideoTexture.fresh 30) 30 [1; 2; 3]%nat
  = Ok (VideoTexture.mk 30 (map S [1; 2; 3]%nat) (Z.of_nat 3) 0).
Proof.
  apply (load_video_keeps_all nat S 30 30 [1; 2; 3]%nat); [discriminate | lra].
Defined.

(** X22: a texture loaded from a fresh state with a non-zero
    [target_fps] serves only the video: for every time [get_frame]
    returns normally, with the black frame when the capture delivered
    nothing and otherwise with the colour-converted copy of one of the
    delivered frames (the first frame is always kept, so the texture is
    never empty then). *)
Theorem loaded_texture_serves_video (frame : Type) (black : frame)
  (cvtColor : frame -> frame) (target_fps : Z) (video_fps : R)
  (stream : list frame) (time : R) :
  target_fps <> 0%Z ->
  exists vt fr,
    VideoTexture._load_video cvtColor (VideoTexture.fresh target_fps)
      video_fps stream = Ok vt
    /\ VideoTexture.frame_count vt = Z.of_nat (length (VideoTexture.frames vt))
    /\ VideoTexture.get_frame black vt time = Ok fr
    /\ (stream = [] -> fr = black)
    /\ (stream <> [] ->
        VideoTexture.frames vt <> []
        /\ exists original, In original stream /\ fr = cvtColor original).
Proof.
  intros Hne. unfold VideoTexture._load_video, VideoTexture.fresh.
  cbn [VideoTexture.target_fps VideoTexture.frames
       VideoTexture.current_frame_idx].
  rewrite py_div_nonzero by (now apply not_0_IZR). cbn [bind].
  set (skip := Z.max 1 (py_int (video_fps / IZR target_fps))).
  rewrite (read_loop frame cvtColor skip stream) with (a := 0%nat) by lia.
  cbn [bind fst app].
  set (kept := map (fun p => cvtColor (snd p)) _).
  set (vt := VideoTexture.mk target_fps kept (Z.of_nat (length kept)) 0).
  destruct (get_frame_cases frame black vt time eq_refl)
    as (fr & Hfr & Hnil & Hin).
  assert (Hk : stream <> [] -> kept <> []).
  { intros Hs. destruct stream as [| fr0 stream]; [contradiction |].
    unfold kept. cbn [length seq map combine filter fst Z.of_nat].
    rewrite Z.mod_0_l by lia. discriminate. }
  exists vt, fr.
  split; [reflexivity |]. split; [reflexivity |]. split; [exact Hfr |].
  split.
  - intros ->. apply Hnil. reflexivity.
  - intros Hs. split; [apply Hk, Hs |].
    specialize (Hin (Hk Hs)).
    unfold vt, kept in Hin. cbn [VideoTexture.frames] in Hin.
    apply in_map_iff in Hin as (p & <- & Hp).
    apply filter_In in Hp as [Hp _].
    exists (snd p). split; [| reflexivity].
    eapply in_combine_indices, Hp.
Qed.

Lemma loaded_texture_serves_video_witness :
  exists vt fr,
    VideoTexture._load_video S (VideoTexture.fresh 30) 60 [1; 2; 3]%nat = Ok vt
    /\ VideoTexture.get_frame 0%nat vt 0.25 = Ok fr
    /\ exists original, In original [1; 2; 3]%nat /\ fr = S original.
Proof.
  destruct (loaded_texture_serves_video nat 0%nat S 30 60 [1; 2; 3]%nat 0.25)
    as (vt & fr & H1 & _ & H3 & _ & H5).
  - discriminate.
  - exists vt, fr. repeat split; try assumption. apply H5. discriminate.
Defined.

(** ** Letters of the masked text *)

Section LetterFacts.

Import VideoMaskedText.

Lemma length_set_opacity_at (ls : list letter) (i : nat) (o : R) :
  length (set_opacity_at ls i o) = length ls.
Proof.
  revert i. induction ls as [| l ls IH]; intros [| i]; simpl;
    try reflexivity. now rewrite IH.
Qed.

Lemma nth_set_opacity_at (ls : list letter) (i j : nat) (o : R) :
  nth_error (set_opacity_at ls i o) j
  = if Nat.eqb i j
    then option_map (fun l => set_opacity l o) (nth_error ls j)
    else nth_error ls j.
Proof.
  revert i j. induction ls as [| l ls IH]; intros [| i] [| j]; simpl;
    try reflexivity.
  - now destruct (Nat.eqb _ _).
  - apply IH.
Qed.

Lemma count_set_opacity_at (ls : list letter) (i : nat) (o : R) (l : letter) :
  nth_error ls i = Some l ->
  (length (filter (fun l => py_gt (opacity l) 0.5) (set_opacity_at ls i o))
   + (if py_gt (opacity l) 0.5 then 1 else 0)
   = length (filter (fun l => py_gt (opacity l) 0.5) ls)
     + (if py_gt o 0.5 then 1 else 0))%nat.
Proof.
  revert i. induction ls as [| l0 ls IH]; intros [| i] Hl; simpl in Hl;
    try discriminate.
  - injection Hl as ->. cbn [set_opacity_at filter set_opacity opacity].
    destruct (py_gt o 0.5), (py_gt (opacity l) 0.5); simpl; lia.
  - cbn [set_opacity_at filter]. specialize (IH i Hl).
    destruct (py_gt (opacity l0) 0.5); simpl; lia.
Qed.

End LetterFacts.

Section LetterFacts2.

Import VideoMaskedText.

Lemma set_opacity_at_twice (ls : list letter) (i : nat) (o o' : R) :
  set_opacity_at (set_opacity_at ls i o) i o' = set_opacity_at ls i o'.
Proof.
  revert i. induction ls as [| l ls IH]; intros [| i]; simpl;
    try reflexivity. now rewrite IH.
Qed.

Lemma set_opacity_at_same (ls : list letter) (i : nat) (o : R) :
  Forall (fun l => opacity l = o) ls -> set_opacity_at ls i o = ls.
Proof.
  intros H. revert i. induction H as [| l ls Hl _ IH]; intros [| i]; simpl.
  - reflexivity.
  - reflexivity.
  - destruct l as [c o0]. simpl in Hl. now subst.
  - now rewrite IH.
Qed.

Lemma in_range_iff (self : t) (index : Z) :
  (0 <=? index)%Z && (index <? letter_count self)%Z = true
  <-> (0 <= index < letter_count self)%Z.
Proof.
  rewrite andb_true_iff, Z.leb_le, Z.ltb_lt. reflexivity.
Qed.

Lemma py_index_set_opacity_at (ls : list letter) (i : nat) (o : R) (j : Z) :
  (l <- PyInt.py_index (set_opacity_at ls i o) j ;; Ok (center l))
  = (l <- PyInt.py_index ls j ;; Ok (center l)).
Proof.
  unfold PyInt.py_index. rewrite length_set_opacity_at.
  set (k := if (j <? 0)%Z then (Z.of_nat (length ls) + j)%Z else j).
  destruct (k <? 0)%Z; [reflexivity |].
  rewrite nth_set_opacity_at.
  destruct (Nat.eqb i (Z.to_nat k)); [| reflexivity].
  destruct (nth_error ls (Z.to_nat k)); reflexivity.
Qed.

End LetterFacts2.

(** X23: a freshly built masked text shows nothing: no letter counts
    as revealed, [letter_count] is the number of glyphs, and every
    letter keeps the centre of its glyph. *)
Theorem masked_text_starts_hidden (glyphs : list VideoMaskedText.letter) :
  let self := VideoMaskedText.init glyphs in
  VideoMaskedText.get_revealed_count self = 0%nat
  /\ VideoMaskedText.letter_count self
     = Z.of_nat (length (VideoMaskedText.letters self))
  /\ VideoMaskedText.letter_count self = Z.of_nat (length glyphs)
  /\ map VideoMaskedText.center (VideoMaskedText.letters self)
     = map VideoMaskedText.center glyphs.
Proof.
  cbv zeta. unfold VideoMaskedText.init, VideoMaskedText.get_revealed_count.
  cbn [VideoMaskedText.letters VideoMaskedText.letter_count].
  repeat split.
  - induction glyphs as [| g glyphs IH]; [reflexivity |].
    cbn [map filter VideoMaskedText.set_opacity VideoMaskedText.opacity].
    unfold py_gt at 1. destruct (Rgt_dec 0 0.5); [lra | exact IH].
  - now rewrite length_map.
  - rewrite map_map. reflexivity.
Qed.

(** X24: an index outside [0, letter_count) is ignored: [reveal_letter]
    and [hide_letter] leave the text as it is and [get_letter_center]
    answers [ORIGIN]; none of them raises. *)
Theorem letter_index_out_of_range (self : VideoMaskedText.t) (index : Z) :
  (index < 0 \/ VideoMaskedText.letter_count self <= index)%Z ->
  VideoMaskedText.reveal_letter self index = self
  /\ VideoMaskedText.hide_letter self index = self
  /\ VideoMaskedText.get_letter_center self index = Ok MetaballMobject.ORIGIN.
Proof.
  intros H.
  assert (Hc : (0 <=? index)%Z
               && (index <? VideoMaskedText.letter_count self)%Z = false).
  { apply not_true_is_false. rewrite in_range_iff. lia. }
  unfold VideoMaskedText.reveal_letter, VideoMaskedText.hide_letter,
    VideoMaskedText.get_letter_center. rewrite Hc. repeat split.
Qed.

Lemma letter_index_out_of_range_witness :
  VideoMaskedText.get_letter_center
    (VideoMaskedText.init [VideoMaskedText.mk_letter (1, 2, 0) 1]) 1
  = Ok MetaballMobject.ORIGIN.
Proof.
  apply (letter_index_out_of_range
           (VideoMaskedText.init [VideoMaskedText.mk_letter (1, 2, 0) 1]) 1).
  right. simpl. lia.
Defined.

(** X25: on a text whose [letter_count] is the number of its letters,
    revealing a letter in range raises the revealed count by one if
    that letter was not counted as revealed and leaves it unchanged
    otherwise; hiding it lowers the count by one if it was counted and
    leaves it unchanged otherwise. *)
Theorem revealed_count_tracks (self : VideoMaskedText.t) (index : Z) :
  VideoMaskedText.letter_count self
  = Z.of_nat (length (VideoMaskedText.letters self)) ->
  (0 <= index < VideoMaskedText.letter_count self)%Z ->
  exists l,
    nth_error (VideoMaskedText.letters self) (Z.to_nat index) = Some l
    /\ VideoMaskedText.get_revealed_count
         (VideoMaskedText.reveal_letter self index)
       = (VideoMaskedText.get_revealed_count self
          + if py_gt (VideoMaskedText.opacity l) 0.5 then 0 else 1)%nat
    /\ (VideoMaskedText.get_revealed_count
          (VideoMaskedText.hide_letter self index)
        + if py_gt (VideoMaskedText.opacity l) 0.5 then 1 else 0)%nat
       = VideoMaskedText.get_revealed_count self.
Proof.
  intros Hwf Hi.
  destruct (nth_error (VideoMaskedText.letters self) (Z.to_nat index))
    as [l |] eqn:Hl; [| apply nth_error_None in Hl; lia].
  exists l. split; [reflexivity |].
  unfold VideoMaskedText.reveal_letter, VideoMaskedText.hide_letter.
  rewrite (proj2 (in_range_iff self index) Hi).
  unfold VideoMaskedText.get_revealed_count. cbn [VideoMaskedText.letters].
  pose proof (count_set_opacity_at _ _ 1 l Hl) as H1.
  pose proof (count_set_opacity_at _ _ 0 l Hl) as H0.
  assert (Hone : py_gt 1 0.5 = true) by (apply py_gt_true; lra).
  assert (Hzero : py_gt 0 0.5 = false).
  { unfold py_gt. destruct (Rgt_dec 0 0.5); [lra | reflexivity]. }
  rewrite Hone in H1. rewrite Hzero in H0.
  destruct (py_gt (VideoMaskedText.opacity l) 0.5); split; lia.
Qed.

Lemma revealed_count_tracks_witness :
  VideoMaskedText.get_revealed_count
    (VideoMaskedText.reveal_letter
       (VideoMaskedText.init [VideoMaskedText.mk_letter (1, 2, 0) 1]) 0)
  = 1%nat.
Proof.
  destruct (revealed_count_tracks
              (VideoMaskedText.init [VideoMaskedText.mk_letter (1, 2, 0) 1]) 0)
    as (l & Hl & Hr & _).
  - reflexivity.
  - simpl. lia.
  - assert (Hzero : py_gt 0 0.5 = false).
    { unfold py_gt. destruct (Rgt_dec 0 0.5); [lra | reflexivity]. }
    unfold VideoMaskedText.init in *.
    cbn [VideoMaskedText.letters map nth_error Z.to_nat] in Hl.
    injection Hl as <-. rewrite Hr.
    unfold VideoMaskedText.get_revealed_count.
    cbn [VideoMaskedText.letters map filter VideoMaskedText.set_opacity
         VideoMaskedText.opacity].
    rewrite Hzero. reflexivity.
Defined.

(** X26: revealing and hiding only touch opacity: they never change
    [letter_count], the number of letters, or the answer of
    [get_letter_center] for any index; hiding after revealing the same
    letter (or the reverse) is the same as the last call alone, and on
    a freshly built text reveal-then-hide gives the fresh text back. *)
Theorem reveal_hide_roundtrip (self : VideoMaskedText.t) (i j : Z) :
  (VideoMaskedText.letter_count (VideoMaskedText.reveal_letter self i)
   = VideoMaskedText.letter_count self
   /\ length (VideoMaskedText.letters (VideoMaskedText.reveal_letter self i))
      = length (VideoMaskedText.letters self)
   /\ VideoMaskedText.get_letter_center (VideoMaskedText.reveal_letter self i) j
      = VideoMaskedText.get_letter_center self j
   /\ VideoMaskedText.get_letter_center (VideoMaskedText.hide_letter self i) j
      = VideoMaskedText.get_letter_center self j)
  /\ VideoMaskedText.hide_letter (VideoMaskedText.reveal_letter self i) i
     = VideoMaskedText.hide_letter self i
  /\ VideoMaskedText.reveal_letter (VideoMaskedText.hide_letter self i) i
     = VideoMaskedText.reveal_letter self i
  /\ (forall glyphs,
        VideoMaskedText.hide_letter
          (VideoMaskedText.reveal_letter (VideoMaskedText.init glyphs) i) i
        = VideoMaskedText.init glyphs).
Proof.
  assert (Hrt : forall s,
    VideoMaskedText.hide_letter (VideoMaskedText.reveal_letter s i) i
    = VideoMaskedText.hide_letter s i).
  { intros s. unfold VideoMaskedText.hide_letter, VideoMaskedText.reveal_letter.
    destruct ((0 <=? i)%Z && (i <? VideoMaskedText.letter_count s)%Z) eqn:Hc;
      cbn [VideoMaskedText.letter_count VideoMaskedText.letters];
      rewrite Hc; [| reflexivity].
    now rewrite set_opacity_at_twice. }
  unfold VideoMaskedText.hide_letter, VideoMaskedText.reveal_letter in *.
  repeat split.
  - now destruct (_ && _).
  - destruct (_ && _); [apply length_set_opacity_at | reflexivity].
  - destruct (_ && _); [| reflexivity].
    unfold VideoMaskedText.get_letter_center.
    cbn [VideoMaskedText.letter_count VideoMaskedText.letters].
    destruct (_ && _); [apply py_index_set_opacity_at | reflexivity].
  - destruct (_ && _); [| reflexivity].
    unfold VideoMaskedText.get_letter_center.
    cbn [VideoMaskedText.letter_count VideoMaskedText.letters].
    destruct (_ && _); [apply py_index_set_opacity_at | reflexivity].
  - apply Hrt.
  - destruct ((0 <=? i)%Z && (i <? VideoMaskedText.letter_count self)%Z) eqn:Hc;
      cbn [VideoMaskedText.letter_count VideoMaskedText.letters];
      rewrite Hc; [| reflexivity].
    now rewrite set_opacity_at_twice.
  - intros glyphs. rewrite Hrt.
    destruct ((0 <=? i)%Z
              && (i <? VideoMaskedText.letter_count (VideoMaskedText.init glyphs))%Z);
      [| reflexivity].
    unfold VideoMaskedText.init.
    cbn [VideoMaskedText.letter_count VideoMaskedText.letters].
    rewrite set_opacity_at_same; [reflexivity |].
    apply Forall_forall. intros l Hl. apply in_map_iff in Hl as (g & <- & _).
    reflexivity.
Qed.
